(** * Subscription model: payment-pattern heuristics

    A shallow embedding of [backend/models/Subscription.js]: the schema's
    record, its instance methods ([calculateNextRenewal], [addPayment],
    [cancelSubscription], [isLikelyValid], [analyzePaymentConsistency]) and
    the [pre('save')] hook; and of the input validation of [PUT /profile]
    in [backend/routes/auth.js].

    Conventions of the embedding.
    - A JavaScript [Date] is its time value, an integer number of
      milliseconds since the epoch ([Z]); the calendar functions follow the
      ECMAScript definitions (Day, YearFromTime, MonthFromTime, DateFromTime,
      MakeDay, MakeDate) with a local time zone of offset zero.
    - A JavaScript [Number] that enters floating-point arithmetic (an
      amount, an interval, an average) is an IEEE 754 binary64 value
      ([float]), and the arithmetic on it is that of binary64, in the order
      of the source.  A score, which is only compared with integer
      constants or raised to 8, is a rational ([Q]); counts and days of the
      month are integers ([Z]).
    - [null]/[undefined] are [None].
    - Methods are state transformers on the record.  A method that evaluates
      a division or reads an array element runs in the [option] monad:
      [None] marks a run that would divide by zero or read past the end of
      the array. *)

From Stdlib Require Import ZArith QArith Qminmax Qabs List String Bool Lia.
From Stdlib Require Import Sorting.Sorted Sorting.Permutation.
From Stdlib Require Import Floats.
Import ListNotations.

Local Open Scope Z_scope.

(** ** JavaScript [Number] *)

Module Number.

(** The binary64 value of an integer (round to nearest, ties to even):
    [ToNumber] of a [Date], an array length, an integer literal. *)
Definition ofZ (z : Z) : float :=
  SF2Prim (binary_normalize prec emax z 0 false).


End Number.

(** ** The [option] monad of checked evaluation *)

Definition bind {A B : Type} (m : option A) (k : A -> option B) : option B :=
  match m with
  | Some a => k a
  | None => None
  end.

Notation "x <- m ;; k" := (bind m (fun x => k))
  (at level 61, m at next level, right associativity).

(** ** JavaScript [Date] *)

Module Date.

Definition msPerDay : Z := 1000 * 60 * 60 * 24.

Definition Day (t : Z) : Z := t / msPerDay.
Definition TimeWithinDay (t : Z) : Z := t mod msPerDay.

Definition InLeapYear (y : Z) : bool :=
  ((y mod 4 =? 0) && negb (y mod 100 =? 0)) || (y mod 400 =? 0).

Definition DaysInYear (y : Z) : Z := if InLeapYear y then 366 else 365.

Definition DayFromYear (y : Z) : Z :=
  365 * (y - 1970) + (y - 1969) / 4 - (y - 1901) / 100 + (y - 1601) / 400.

(** The largest year [y] with [DayFromYear y <= day]: the mean-year
    estimate is off by at most one year, which the two tests repair. *)
Definition YearFromDay (day : Z) : Z :=
  let y := 1970 + (400 * day) / 146097 in
  if DayFromYear (y + 1) <=? day then y + 1
  else if DayFromYear y <=? day then y
  else y - 1.

(** Day number, within its year, of the first day of month [m] (0..11). *)
Definition MonthStart (leap : bool) (m : Z) : Z :=
  let l := if leap then 1 else 0 in
  match m with
  | 0 => 0
  | 1 => 31
  | 2 => 59 + l
  | 3 => 90 + l
  | 4 => 120 + l
  | 5 => 151 + l
  | 6 => 181 + l
  | 7 => 212 + l
  | 8 => 243 + l
  | 9 => 273 + l
  | 10 => 304 + l
  | _ => 334 + l
  end.

Definition MonthFromDay (leap : bool) (dayWithinYear : Z) : Z :=
  if dayWithinYear <? MonthStart leap 1 then 0
  else if dayWithinYear <? MonthStart leap 2 then 1
  else if dayWithinYear <? MonthStart leap 3 then 2
  else if dayWithinYear <? MonthStart leap 4 then 3
  else if dayWithinYear <? MonthStart leap 5 then 4
  else if dayWithinYear <? MonthStart leap 6 then 5
  else if dayWithinYear <? MonthStart leap 7 then 6
  else if dayWithinYear <? MonthStart leap 8 then 7
  else if dayWithinYear <? MonthStart leap 9 then 8
  else if dayWithinYear <? MonthStart leap 10 then 9
  else if dayWithinYear <? MonthStart leap 11 then 10
  else 11.

Definition YearFromTime (t : Z) : Z := YearFromDay (Day t).

Definition DayWithinYear (t : Z) : Z := Day t - DayFromYear (YearFromTime t).

Definition MonthFromTime (t : Z) : Z :=
  MonthFromDay (InLeapYear (YearFromTime t)) (DayWithinYear t).

Definition DateFromTime (t : Z) : Z :=
  DayWithinYear t
  - MonthStart (InLeapYear (YearFromTime t)) (MonthFromTime t) + 1.

(** [MakeDay]: months outside 0..11 carry into the year, and the day of
    the month is added as a plain offset, so that it may run over the end
    (or before the start) of the month. *)
Definition MakeDay (year month date : Z) : Z :=
  let ym := year + month / 12 in
  let mn := month mod 12 in
  DayFromYear ym + MonthStart (InLeapYear ym) mn + date - 1.

Definition MakeDate (day time : Z) : Z := day * msPerDay + time.

(** The time value of a calendar date and a time of day. *)
Definition at_ (year month date ms : Z) : Z :=
  MakeDate (MakeDay year month date) ms.

(** [new Date(year, month, date)]: local midnight; a year in 0..99 stands
    for 1900 + year. *)
Definition make (year month date : Z) : Z :=
  let yr := if (0 <=? year) && (year <=? 99) then 1900 + year else year in
  at_ yr month date 0.

Definition getFullYear (t : Z) : Z := YearFromTime t.
Definition getMonth (t : Z) : Z := MonthFromTime t.
Definition getDate (t : Z) : Z := DateFromTime t.

Definition setMonth (t month : Z) : Z :=
  at_ (YearFromTime t) month (DateFromTime t) (TimeWithinDay t).

Definition setDate (t date : Z) : Z :=
  at_ (YearFromTime t) (MonthFromTime t) date (TimeWithinDay t).

(** Number of days of month [m] (0..11) of year [y]. *)
Definition DaysInMonth (y m : Z) : Z :=
  if m =? 11 then 31
  else MonthStart (InLeapYear y) (m + 1) - MonthStart (InLeapYear y) m.

(** Calendar reading of a time value: (year, month 0..11, day, ms). *)
Definition fields (t : Z) : Z * Z * Z * Z :=
  (getFullYear t, getMonth t, getDate t, TimeWithinDay t).

End Date.

(** ** The schema *)

(** One element of [paymentHistory]. *)
Module Payment.
Record t : Type := mk {
  date : Z;
  amount : float;
  currency : string;
  emailSubject : string;
  confidence : Q
}.
End Payment.

(** The argument of [addPayment]; every field but [amount] may be missing. *)
Module PaymentData.
Record t : Type := mk {
  date : option Z;
  amount : float;
  currency : option string;
  subject : option string;
  confidence : option Q
}.
End PaymentData.

Inductive Currency : Type := USD | EUR | GBP | AED.

Record Subscription : Type := mkSubscription {
  userId : string;
  serviceName : string;
  amount : Q;
  currency : Currency;
  renewalDay : Z;
  nextRenewal : option Z;
  category : string;
  description : string;
  isActive : bool;
  detectedFromEmail : bool;
  paymentHistory : list Payment.t;
  cancellationDate : option Z;
  cancellationReason : string;
  lastPaymentDate : option Z;
  isRecurring : bool;
  confidenceScore : Q;
  hasPaymentHistory : bool;
  hasConsistentRenewalDate : bool;
  paymentCount : Z
}.

(** A document created from the required fields alone: every other path
    takes its schema default. *)
Definition fresh (uid name : string) (amt : Q) (cur : Currency) (day : Z)
  : Subscription :=
  {| userId := uid; serviceName := name; amount := amt; currency := cur;
     renewalDay := day; nextRenewal := None; category := "Other";
     description := EmptyString; isActive := true; detectedFromEmail := false;
     paymentHistory := []; cancellationDate := None; cancellationReason := EmptyString;
     lastPaymentDate := None; isRecurring := false; confidenceScore := 0%Q;
     hasPaymentHistory := false; hasConsistentRenewalDate := false;
     paymentCount := 0 |}.

(** Assignments [this.field = v]. *)

Definition set_nextRenewal (v : option Z) (r : Subscription) : Subscription :=
  mkSubscription (userId r) (serviceName r) (amount r) (currency r)
    (renewalDay r) v (category r) (description r) (isActive r)
    (detectedFromEmail r) (paymentHistory r) (cancellationDate r)
    (cancellationReason r) (lastPaymentDate r) (isRecurring r)
    (confidenceScore r) (hasPaymentHistory r) (hasConsistentRenewalDate r)
    (paymentCount r).

Definition set_isActive (v : bool) (r : Subscription) : Subscription :=
  mkSubscription (userId r) (serviceName r) (amount r) (currency r)
    (renewalDay r) (nextRenewal r) (category r) (description r) v
    (detectedFromEmail r) (paymentHistory r) (cancellationDate r)
    (cancellationReason r) (lastPaymentDate r) (isRecurring r)
    (confidenceScore r) (hasPaymentHistory r) (hasConsistentRenewalDate r)
    (paymentCount r).

Definition set_paymentHistory (v : list Payment.t) (r : Subscription)
  : Subscription :=
  mkSubscription (userId r) (serviceName r) (amount r) (currency r)
    (renewalDay r) (nextRenewal r) (category r) (description r) (isActive r)
    (detectedFromEmail r) v (cancellationDate r)
    (cancellationReason r) (lastPaymentDate r) (isRecurring r)
    (confidenceScore r) (hasPaymentHistory r) (hasConsistentRenewalDate r)
    (paymentCount r).

Definition set_cancellationDate (v : option Z) (r : Subscription)
  : Subscription :=
  mkSubscription (userId r) (serviceName r) (amount r) (currency r)
    (renewalDay r) (nextRenewal r) (category r) (description r) (isActive r)
    (detectedFromEmail r) (paymentHistory r) v
    (cancellationReason r) (lastPaymentDate r) (isRecurring r)
    (confidenceScore r) (hasPaymentHistory r) (hasConsistentRenewalDate r)
    (paymentCount r).

Definition set_cancellationReason (v : string) (r : Subscription)
  : Subscription :=
  mkSubscription (userId r) (serviceName r) (amount r) (currency r)
    (renewalDay r) (nextRenewal r) (category r) (description r) (isActive r)
    (detectedFromEmail r) (paymentHistory r) (cancellationDate r)
    v (lastPaymentDate r) (isRecurring r)
    (confidenceScore r) (hasPaymentHistory r) (hasConsistentRenewalDate r)
    (paymentCount r).

Definition set_lastPaymentDate (v : option Z) (r : Subscription)
  : Subscription :=
  mkSubscription (userId r) (serviceName r) (amount r) (currency r)
    (renewalDay r) (nextRenewal r) (category r) (description r) (isActive r)
    (detectedFromEmail r) (paymentHistory r) (cancellationDate r)
    (cancellationReason r) v (isRecurring r)
    (confidenceScore r) (hasPaymentHistory r) (hasConsistentRenewalDate r)
    (paymentCount r).

Definition set_isRecurring (v : bool) (r : Subscription) : Subscription :=
  mkSubscription (userId r) (serviceName r) (amount r) (currency r)
    (renewalDay r) (nextRenewal r) (category r) (description r) (isActive r)
    (detectedFromEmail r) (paymentHistory r) (cancellationDate r)
    (cancellationReason r) (lastPaymentDate r) v
    (confidenceScore r) (hasPaymentHistory r) (hasConsistentRenewalDate r)
    (paymentCount r).

Definition set_confidenceScore (v : Q) (r : Subscription) : Subscription :=
  mkSubscription (userId r) (serviceName r) (amount r) (currency r)
    (renewalDay r) (nextRenewal r) (category r) (description r) (isActive r)
    (detectedFromEmail r) (paymentHistory r) (cancellationDate r)
    (cancellationReason r) (lastPaymentDate r) (isRecurring r)
    v (hasPaymentHistory r) (hasConsistentRenewalDate r)
    (paymentCount r).

Definition set_hasPaymentHistory (v : bool) (r : Subscription)
  : Subscription :=
  mkSubscription (userId r) (serviceName r) (amount r) (currency r)
    (renewalDay r) (nextRenewal r) (category r) (description r) (isActive r)
    (detectedFromEmail r) (paymentHistory r) (cancellationDate r)
    (cancellationReason r) (lastPaymentDate r) (isRecurring r)
    (confidenceScore r) v (hasConsistentRenewalDate r)
    (paymentCount r).

Definition set_hasConsistentRenewalDate (v : bool) (r : Subscription)
  : Subscription :=
  mkSubscription (userId r) (serviceName r) (amount r) (currency r)
    (renewalDay r) (nextRenewal r) (category r) (description r) (isActive r)
    (detectedFromEmail r) (paymentHistory r) (cancellationDate r)
    (cancellationReason r) (lastPaymentDate r) (isRecurring r)
    (confidenceScore r) (hasPaymentHistory r) v
    (paymentCount r).

Definition set_paymentCount (v : Z) (r : Subscription) : Subscription :=
  mkSubscription (userId r) (serviceName r) (amount r) (currency r)
    (renewalDay r) (nextRenewal r) (category r) (description r) (isActive r)
    (detectedFromEmail r) (paymentHistory r) (cancellationDate r)
    (cancellationReason r) (lastPaymentDate r) (isRecurring r)
    (confidenceScore r) (hasPaymentHistory r) (hasConsistentRenewalDate r)
    v.

(** ** JavaScript operators used by the methods *)

(** [a || b] on an optional [Date]: a [Date] object is always truthy. *)
Definition orDate (a : option Z) (b : Z) : Z :=
  match a with
  | Some d => d
  | None => b
  end.

(** [a || b] on an optional string: the empty string is falsy. *)
Definition orString (a : option string) (b : string) : string :=
  match a with
  | Some EmptyString => b
  | Some s => s
  | None => b
  end.

(** [a || b] on an optional number: zero is falsy. *)
Definition orNumber (a : option Q) (b : Q) : Q :=
  match a with
  | Some q => if Qeq_bool q 0 then b else q
  | None => b
  end.

(** [!a] on an optional [Date]. *)
Definition isNone {A : Type} (a : option A) : bool :=
  match a with
  | Some _ => false
  | None => true
  end.

(** A default parameter value replaces a missing argument only. *)
Definition defaultArg {A : Type} (a : option A) (dflt : A) : A :=
  match a with
  | Some v => v
  | None => dflt
  end.

(** [Array.prototype.sort(compareFn)]: the stable ascending order of the
    array under [compareFn] ([compareFn a b < 0] puts [a] first; elements
    that compare equal keep their relative order). *)
Section ArraySort.
Context {A : Type} (compareFn : A -> A -> Z).

Fixpoint insert (x : A) (l : list A) : list A :=
  match l with
  | [] => [x]
  | y :: l' =>
      if compareFn y x <=? 0 then y :: insert x l' else x :: y :: l'
  end.

Definition sort (l : list A) : list A :=
  fold_left (fun sorted x => insert x sorted) l [].
End ArraySort.

(** [total / length] in binary64, flagged when [length] is zero. *)
Definition divideByLength (total : float) (length : nat) : option float :=
  match length with
  | O => None
  | S _ => Some (total / Number.ofZ (Z.of_nat length))%float
  end.

(** [array.reduce((a, b) => a + b, 0)]: binary64 additions from the left. *)
Definition sum (l : list float) : float := fold_left PrimFloat.add l 0%float.

(** ** Instance methods *)

(** The result object of [analyzePaymentConsistency]; the early return has
    no [paymentCount] property. *)
Module Analysis.
Record t : Type := mk {
  isConsistent : bool;
  averageInterval : float;
  hasMonthlyPattern : bool;
  paymentCount : option Z
}.
End Analysis.

(** [(a, b) => new Date(a.date) - new Date(b.date)] *)
Definition compareDates (a b : Payment.t) : Z :=
  Payment.date a - Payment.date b.

(** [(new Date(cur.date) - new Date(prev.date)) / (1000 * 60 * 60 * 24)]:
    each [Date] is converted to its time value as a Number, and the
    subtraction, the products and the division are those of binary64. *)
Definition intervalDays (cur prev : Payment.t) : float :=
  ((Number.ofZ (Payment.date cur) - Number.ofZ (Payment.date prev))
   / (1000 * 60 * 60 * 24))%float.

(** The loop [for (let i = 1; i < sortedPayments.length; i++)]; [todo] is
    the number of iterations left, [sortedPayments.length - i]. *)
Fixpoint intervalsLoop (sortedPayments : list Payment.t) (i todo : nat)
    (intervals : list float) : option (list float) :=
  match todo with
  | O => Some intervals
  | S todo' =>
      cur <- nth_error sortedPayments i ;;
      prev <- nth_error sortedPayments (i - 1) ;;
      intervalsLoop sortedPayments (S i) todo'
        (intervals ++ [intervalDays cur prev])
  end.

(** [Math.abs(amount - avgAmount) <= (avgAmount * 0.1)]; the literal [0.1]
    is the binary64 number nearest to one tenth, written here in
    hexadecimal. *)
Definition withinTenPercent (avgAmount amount : float) : bool :=
  (abs (amount - avgAmount) <=? avgAmount * 0x1.999999999999ap-4)%float.

(** [analyzePaymentConsistency]: the result object and the record after the
    call ([Array.prototype.sort] sorts [this.paymentHistory] itself and
    returns that same array). *)
Definition analyzePaymentConsistency (r : Subscription)
  : option (Analysis.t * Subscription) :=
  if (List.length (paymentHistory r) <? 2)%nat then
    Some (Analysis.mk false 0%float false None, r)
  else
    let sortedPayments := sort compareDates (paymentHistory r) in
    let r := set_paymentHistory sortedPayments r in
    intervals <-
      intervalsLoop sortedPayments 1 (List.length sortedPayments - 1) [] ;;
    averageInterval <- divideByLength (sum intervals) (List.length intervals) ;;
    let hasMonthlyPattern :=
      (25 <=? averageInterval)%float && (averageInterval <=? 35)%float in
    let amounts := map Payment.amount sortedPayments in
    avgAmount <- divideByLength (sum amounts) (List.length amounts) ;;
    let isConsistent := forallb (withinTenPercent avgAmount) amounts in
    Some (Analysis.mk isConsistent averageInterval hasMonthlyPattern
            (Some (Z.of_nat (List.length (paymentHistory r)))), r).

(** The object pushed by [addPayment]; [now] is the value of [new Date()],
    read only when [paymentData.date] is missing. *)
Definition storedEvent (now : Z) (paymentData : PaymentData.t) : Payment.t :=
  Payment.mk (orDate (PaymentData.date paymentData) now)
    (PaymentData.amount paymentData)
    (orString (PaymentData.currency paymentData) "USD"%string)
    (orString (PaymentData.subject paymentData) EmptyString)
    (orNumber (PaymentData.confidence paymentData) 0%Q).

(** The first half of [addPayment]: the push and the two assignments.
    [now1] and [now2] are the values of its two [new Date()] expressions. *)
Definition recordPayment (now1 now2 : Z) (paymentData : PaymentData.t)
    (r : Subscription) : Subscription :=
  let r :=
    set_paymentHistory (paymentHistory r ++ [storedEvent now1 paymentData]) r in
  let r :=
    set_lastPaymentDate (Some (orDate (PaymentData.date paymentData) now2)) r in
  set_paymentCount (Z.of_nat (List.length (paymentHistory r))) r.

(** The body of [if (this.paymentCount > 1)] after the analysis. *)
Definition updateFromAnalysis (analysis : Analysis.t) (r : Subscription)
  : Subscription :=
  let r := set_isRecurring true r in
  let r :=
    set_hasConsistentRenewalDate (Analysis.hasMonthlyPattern analysis) r in
  let r := set_hasPaymentHistory true r in
  if Analysis.isConsistent analysis && Analysis.hasMonthlyPattern analysis
  then set_confidenceScore (Qmax (confidenceScore r) 8) r
  else r.

Definition addPayment (now1 now2 : Z) (paymentData : PaymentData.t)
    (r : Subscription) : option Subscription :=
  let r := recordPayment now1 now2 paymentData r in
  if 1 <? paymentCount r then
    ar <- analyzePaymentConsistency r ;;
    Some (updateFromAnalysis (fst ar) (snd ar))
  else Some r.

Definition cancelSubscription (now : Z) (reason : option string)
    (r : Subscription) : Subscription :=
  let reason := defaultArg reason "User cancelled"%string in
  let r := set_isActive false r in
  let r := set_cancellationDate (Some now) r in
  set_cancellationReason reason r.

Definition daysSinceLastPayment (now : Z) (r : Subscription) : Z :=
  match lastPaymentDate r with
  | Some last => (now - last) / (1000 * 60 * 60 * 24)
  | None => 999
  end.

Definition isLikelyValid (now : Z) (r : Subscription) : bool :=
  let days := daysSinceLastPayment now r in
  if 180 <? days then false
  else if (1 <? paymentCount r) && isRecurring r && (days <=? 90) then true
  else if (paymentCount r =? 1) && Qle_bool 6 (confidenceScore r)
          && (days <=? 60) then true
  else if (days <=? 30) && Qle_bool 4 (confidenceScore r) then true
  else false.

Definition calculateNextRenewal (now : Z) (r : Subscription) : Z :=
  let nextRenewal :=
    Date.make (Date.getFullYear now) (Date.getMonth now) (renewalDay r) in
  let nextRenewal :=
    if nextRenewal <=? now
    then Date.setMonth nextRenewal (Date.getMonth nextRenewal + 1)
    else nextRenewal in
  if negb (Date.getDate nextRenewal =? renewalDay r)
  then Date.setDate nextRenewal 0
  else nextRenewal.

(** The [pre('save')] hook; [renewalDayModified] and [isNew] stand for
    [this.isModified('renewalDay')] and [this.isNew]. *)
Definition preSave (now : Z) (renewalDayModified isNew : bool)
    (r : Subscription) : Subscription :=
  let r :=
    if isNone (nextRenewal r) || renewalDayModified || isNew
    then set_nextRenewal (Some (calculateNextRenewal now r)) r
    else r in
  match cancellationDate r with
  | Some _ => set_nextRenewal None r
  | None => r
  end.

(** ** Traces of operations on one document *)

Inductive Op : Type :=
| OpAddPayment (now1 now2 : Z) (paymentData : PaymentData.t)
| OpCancelSubscription (now : Z) (reason : option string)
| OpAnalyzePaymentConsistency
| OpIsLikelyValid (now : Z)
| OpCalculateNextRenewal (now : Z)
| OpSave (now : Z) (renewalDayModified isNew : bool).

(** The record after one operation (results of queries are dropped). *)
Definition step (op : Op) (r : Subscription) : option Subscription :=
  match op with
  | OpAddPayment now1 now2 paymentData => addPayment now1 now2 paymentData r
  | OpCancelSubscription now reason => Some (cancelSubscription now reason r)
  | OpAnalyzePaymentConsistency =>
      ar <- analyzePaymentConsistency r ;; Some (snd ar)
  | OpIsLikelyValid now => let _ := isLikelyValid now r in Some r
  | OpCalculateNextRenewal now => let _ := calculateNextRenewal now r in Some r
  | OpSave now renewalDayModified isNew =>
      Some (preSave now renewalDayModified isNew r)
  end.

Fixpoint exec (ops : list Op) (r : Subscription) : option Subscription :=
  match ops with
  | [] => Some r
  | op :: ops' => r' <- step op r ;; exec ops' r'
  end.

Definition isAddPayment (op : Op) : bool :=
  match op with
  | OpAddPayment _ _ _ => true
  | _ => false
  end.

(** Number of [addPayment] calls in a trace. *)
Definition addPaymentCalls (ops : list Op) : nat :=
  List.length (filter isAddPayment ops).

(** ** The specification's wording *)

(** Events in ascending order of date. *)
Definition dateLe (a b : Payment.t) : Prop := Payment.date a <= Payment.date b.

Definition dateAscending (events : list Payment.t) : Prop :=
  StronglySorted dateLe events.

(** The events of one date, for stating the stability of the sort. *)
Definition datedAt (d : Z) (p : Payment.t) : bool := Payment.date p =? d.

(** Day-gaps between consecutive events, as binary64 numbers. *)
Fixpoint dayGaps (events : list Payment.t) : list float :=
  match events with
  | [] => []
  | a :: rest =>
      match rest with
      | [] => []
      | b :: _ => intervalDays b a :: dayGaps rest
      end
  end.

(** The binary64 mean: the values added from the left, starting from 0,
    and the sum divided by their number. *)
Definition floatMean (values : list float) : float :=
  (fold_left PrimFloat.add values 0
   / Number.ofZ (Z.of_nat (List.length values)))%float.

(** The same notions in exact arithmetic, as the specification words
    them. *)





(** An amount of [n] cents: the binary64 number nearest to [n / 100]. *)
Definition centsAmount (n : Z) : float := (Number.ofZ n / 100)%float.




(** Whole days from [lastPaymentDate] to now, truncated toward zero. *)
Definition daysTruncated (now : Z) (r : Subscription) : Z :=
  match lastPaymentDate r with
  | Some last => Z.quot (now - last) Date.msPerDay
  | None => 999
  end.

(** The decision rules of the validity estimate, as (condition, verdict)
    pairs in their order of evaluation. *)
Definition validityRules (days : Z) (r : Subscription) : list (bool * bool) :=
  [ (180 <? days, false);
    ((1 <? paymentCount r) && isRecurring r && (days <=? 90), true);
    ((paymentCount r =? 1) && Qle_bool 6 (confidenceScore r) && (days <=? 60),
      true);
    ((days <=? 30) && Qle_bool 4 (confidenceScore r), true);
    (true, false) ].

(** First match wins. *)
Fixpoint firstMatch (rules : list (bool * bool)) : bool :=
  match rules with
  | [] => false
  | (condition, verdict) :: rest =>
      if condition then verdict else firstMatch rest
  end.

(** The latest date among the events of a history. *)
Definition latestDate (events : list Payment.t) : option Z :=
  match events with
  | [] => None
  | a :: rest =>
      Some (fold_left Z.max (map Payment.date rest) (Payment.date a))
  end.

(** What a trace with [n] calls of [addPayment] maintains, from a fresh
    document on. *)
Definition traceInvariant (n : nat) (r : Subscription) : Prop :=
  paymentCount r = Z.of_nat n /\
  List.length (paymentHistory r) = n /\
  isRecurring r = (2 <=? n)%nat.

(** The history after [addPayment]: the old events and the new one, sorted
    by the analysis when there is more than one. *)
Definition historyAfterAdd (now1 : Z) (paymentData : PaymentData.t)
    (r : Subscription) : list Payment.t :=
  sort compareDates (paymentHistory r ++ [storedEvent now1 paymentData]).

(** ** Sample data *)

Definition days (n : Z) : Z := n * Date.msPerDay.

(** A payment of 10 USD detected on day [n] after the epoch. *)
Definition paymentOn (n : Z) : PaymentData.t :=
  PaymentData.mk (Some (days n)) 10%float None None None.

Definition eventOn (n : Z) : Payment.t :=
  Payment.mk (days n) 10%float "USD"%string EmptyString 0%Q.

(** An event of amount [a] on day [n]. *)
Definition eventOf (n : Z) (a : float) : Payment.t :=
  Payment.mk (days n) a "USD"%string EmptyString 0%Q.


Definition sample : Subscription :=
  fresh "user"%string "Streaming"%string 10%Q USD 31.




(** The month after month [m] (0..11) of year [y]. *)
Definition nextMonth (y m : Z) : Z * Z :=
  if m =? 11 then (y + 1, 0) else (y, m + 1).

(** The target month of a renewal computed at [now]: the current month when
    day [renewalDay] of it (run over into the next month if the month is
    shorter) lies after [now], the month after otherwise. *)
Definition targetMonth (now renewalDay : Z) : Z * Z :=
  let y := Date.getFullYear now in
  let m := Date.getMonth now in
  if Date.at_ y m renewalDay 0 <=? now then nextMonth y m else (y, m).

(** ** The profile route of [routes/auth.js] *)

(** [PUT /profile] up to its database call: the 400 response, or the update
    document handed to [User.findByIdAndUpdate].  A JavaScript string is
    its list of code units; [isWhiteSpace] tells the code units that
    [String.prototype.trim] strips (white space and line terminators). *)
Section Profile.
Context {Char : Type} (isWhiteSpace : Char -> bool).







End Profile.

(** ** Invariants of traces *)

(** What a trace with [n] calls of [addPayment] maintains besides
    [traceInvariant], from a fresh document on. *)
Definition freshInvariant (n : nat) (r : Subscription) : Prop :=
  traceInvariant n r /\
  dateAscending (paymentHistory r) /\
  hasPaymentHistory r = isRecurring r /\
  (confidenceScore r = 0%Q \/ (confidenceScore r = 8%Q /\ (2 <= n)%nat)).

(** A cancelled document. *)
Definition cancelled (r : Subscription) : Prop :=
  isActive r = false /\ cancellationDate r <> None.

(** ** Proof automation for the month table *)

(** Case analysis on a month in 0..11. *)
Ltac month_cases m :=
  let H := fresh "Hm" in
  assert (H : m = 0 \/ m = 1 \/ m = 2 \/ m = 3 \/ m = 4 \/ m = 5 \/ m = 6 \/
              m = 7 \/ m = 8 \/ m = 9 \/ m = 10 \/ m = 11) by lia;
  repeat (destruct H as [H|H]); subst m.

(** Evaluate the month table at literal months. *)
Ltac literal v :=
  lazymatch v with
  | Z0 => idtac
  | Zpos _ => idtac
  | true => idtac
  | false => idtac
  end.

Ltac month_table :=
  repeat match goal with
    | |- context [Date.MonthStart ?l ?k] =>
        let v := eval vm_compute in (Date.MonthStart l k) in
        literal v; change (Date.MonthStart l k) with v
    | H : context [Date.MonthStart ?l ?k] |- _ =>
        let v := eval vm_compute in (Date.MonthStart l k) in
        literal v; change (Date.MonthStart l k) with v in H
    | |- context [?a =? 11] =>
        let v := eval vm_compute in (a =? 11) in
        literal v; change (a =? 11) with v
    | H : context [?a =? 11] |- _ =>
        let v := eval vm_compute in (a =? 11) in
        literal v; change (a =? 11) with v in H
    end; cbv iota in *.

Ltac decide_tests :=
  repeat match goal with
    | |- context [?a <? ?b] => destruct (Z.ltb_spec a b); try lia
    end.

(** Replace the renewal dates computed in the goal by variables. *)
Ltac abstract_renewals :=
  repeat match goal with
    | |- context [calculateNextRenewal ?a ?b] =>
        let c := fresh "renewal" in
        set (c := calculateNextRenewal a b); clearbody c
    end.

(** * Properties *)

(** ** [Array.prototype.sort] *)

Section SortFacts.
Context {A : Type} (compareFn : A -> A -> Z).

Lemma insert_perm (x : A) (l : list A) :
  Permutation (insert compareFn x l) (l ++ [x]).
Proof.
  induction l as [|y l IH]; simpl.
  - apply Permutation_refl.
  - destruct (compareFn y x <=? 0).
    + now apply perm_skip.
    + change (x :: y :: l) with ([x] ++ (y :: l)).
      change (y :: l ++ [x]) with ((y :: l) ++ [x]).
      apply Permutation_app_comm.
Qed.

Lemma sort_snoc (l : list A) (x : A) :
  sort compareFn (l ++ [x]) = insert compareFn x (sort compareFn l).
Proof. unfold sort. now rewrite fold_left_app. Qed.

Lemma sort_perm (l : list A) : Permutation (sort compareFn l) l.
Proof.
  induction l as [|x l IH] using rev_ind.
  - apply Permutation_refl.
  - rewrite sort_snoc.
    eapply Permutation_trans; [apply insert_perm|].
    now apply Permutation_app_tail.
Qed.

Lemma sort_length (l : list A) :
  List.length (sort compareFn l) = List.length l.
Proof. apply Permutation_length, sort_perm. Qed.
End SortFacts.

Lemma dateLe_trans (a b c : Payment.t) : dateLe a b -> dateLe b c -> dateLe a c.
Proof. unfold dateLe. lia. Qed.

Lemma insert_Forall (P : Payment.t -> Prop) (x : Payment.t) (l : list Payment.t) :
  P x -> Forall P l -> Forall P (insert compareDates x l).
Proof.
  intros Hx Hl.
  eapply Permutation_Forall.
  - apply Permutation_sym, insert_perm.
  - apply Forall_app. split; [assumption | now constructor].
Qed.

Lemma insert_dateAscending (x : Payment.t) (l : list Payment.t) :
  dateAscending l -> dateAscending (insert compareDates x l).
Proof.
  unfold dateAscending.
  induction 1 as [|y l Hl IH Hy]; simpl.
  - repeat constructor.
  - unfold compareDates at 1.
    destruct (Z.leb_spec (Payment.date y - Payment.date x) 0) as [Hle|Hgt].
    + constructor; [exact IH|].
      apply insert_Forall; [unfold dateLe; lia | exact Hy].
    + constructor; [now constructor|].
      constructor; [unfold dateLe; lia|].
      eapply Forall_impl; [|exact Hy].
      intros z Hz. unfold dateLe in *. lia.
Qed.

Lemma sort_dateAscending (l : list Payment.t) :
  dateAscending (sort compareDates l).
Proof.
  induction l as [|x l IH] using rev_ind.
  - constructor.
  - rewrite sort_snoc. now apply insert_dateAscending.
Qed.

Lemma dateAscending_app_l (l1 l2 : list Payment.t) :
  dateAscending (l1 ++ l2) -> dateAscending l1.
Proof.
  unfold dateAscending.
  induction l1 as [|y l1 IH]; simpl; intros H.
  - constructor.
  - inversion H as [|? ? Hs Hf]; subst.
    constructor; [now apply IH|].
    apply Forall_app in Hf. tauto.
Qed.

(** An element that is not earlier than any element of a sorted array goes
    to its end. *)
Lemma insert_last (x : Payment.t) (l : list Payment.t) :
  dateAscending (l ++ [x]) -> insert compareDates x l = l ++ [x].
Proof.
  unfold dateAscending.
  induction l as [|y l IH]; simpl; intros H.
  - reflexivity.
  - inversion H as [|? ? Hs Hf]; subst.
    apply Forall_app in Hf. destruct Hf as [_ Hx].
    inversion Hx as [|? ? Hyx _]; subst.
    unfold compareDates at 1.
    destruct (Z.leb_spec (Payment.date y - Payment.date x) 0) as [_|Hgt].
    + now rewrite IH.
    + unfold dateLe in Hyx. lia.
Qed.

(** Sorting leaves a date-ascending array as it is. *)
Lemma sort_sorted_id (l : list Payment.t) :
  dateAscending l -> sort compareDates l = l.
Proof.
  induction l as [|x l IH] using rev_ind; intros H.
  - reflexivity.
  - rewrite sort_snoc, IH by (eapply dateAscending_app_l; exact H).
    now apply insert_last.
Qed.

Lemma sort_idempotent (l : list Payment.t) :
  sort compareDates (sort compareDates l) = sort compareDates l.
Proof. apply sort_sorted_id, sort_dateAscending. Qed.

(** Stability: the events of any one date keep their relative order. *)

Lemma insert_stable (d : Z) (x : Payment.t) (l : list Payment.t) :
  dateAscending l ->
  filter (datedAt d) (insert compareDates x l) = filter (datedAt d) (l ++ [x]).
Proof.
  unfold dateAscending.
  induction 1 as [|y l Hl IH Hy]; simpl.
  - reflexivity.
  - unfold compareDates at 1.
    destruct (Z.leb_spec (Payment.date y - Payment.date x) 0) as [Hle|Hgt].
    + simpl. now rewrite IH.
    + rewrite filter_app. simpl.
      destruct (datedAt d x) eqn:Ex.
      * assert (Hnone : filter (datedAt d) l = []).
        { clear IH Hl. induction Hy as [|z l Hz Hy IH]; simpl.
          - reflexivity.
          - destruct (datedAt d z) eqn:Ez; [|exact IH].
            unfold datedAt, dateLe in *. lia. }
        rewrite Hnone.
        destruct (datedAt d y) eqn:Ey; [|reflexivity].
        unfold datedAt in *. lia.
      * now rewrite app_nil_r.
Qed.

Lemma sort_stable (d : Z) (l : list Payment.t) :
  filter (datedAt d) (sort compareDates l) = filter (datedAt d) l.
Proof.
  induction l as [|x l IH] using rev_ind.
  - reflexivity.
  - rewrite sort_snoc, insert_stable by apply sort_dateAscending.
    now rewrite !filter_app, IH.
Qed.

(** ** The interval loop *)

Lemma skipn_nth_error {A : Type} (l : list A) (n : nat) (a : A) :
  nth_error l n = Some a -> skipn n l = a :: skipn (S n) l.
Proof.
  revert l. induction n as [|n IH]; intros [|b l] H; try discriminate.
  - simpl in H. now inversion H.
  - simpl in H. change (skipn n l = a :: skipn (S n) l). now apply IH.
Qed.

Lemma nth_error_in_range {A : Type} (l : list A) (n : nat) :
  (n < List.length l)%nat -> exists a, nth_error l n = Some a.
Proof.
  intros H. destruct (nth_error l n) as [a|] eqn:E.
  - now exists a.
  - apply nth_error_None in E. lia.
Qed.

(** Started at index [S i] with the iterations that remain up to the length
    of the array, the loop pushes the day-gaps of the array from index [i]
    on, and every read is in range. *)
Lemma intervalsLoop_eq (l : list Payment.t) (todo i : nat)
    (acc : list float) :
  (S i + todo = List.length l)%nat ->
  intervalsLoop l (S i) todo acc = Some (acc ++ dayGaps (skipn i l)).
Proof.
  revert i acc. induction todo as [|todo IH]; intros i acc Hlen.
  - destruct (nth_error_in_range l i) as [a Ha]; [lia|].
    rewrite (skipn_nth_error _ _ _ Ha).
    rewrite skipn_all2 by lia. simpl. now rewrite app_nil_r.
  - destruct (nth_error_in_range l i) as [prev Hprev]; [lia|].
    destruct (nth_error_in_range l (S i)) as [cur Hcur]; [lia|].
    cbn [intervalsLoop]. rewrite Hcur. cbn [bind].
    replace (S i - 1)%nat with i by lia.
    rewrite Hprev. cbn [bind].
    rewrite IH by lia.
    rewrite (skipn_nth_error _ _ _ Hprev), (skipn_nth_error _ _ _ Hcur).
    cbn [dayGaps]. now rewrite <- app_assoc.
Qed.

Lemma intervalsLoop_dayGaps (l : list Payment.t) :
  (1 <= List.length l)%nat ->
  intervalsLoop l 1 (List.length l - 1) [] = Some (dayGaps l).
Proof. intros H. rewrite intervalsLoop_eq by lia. reflexivity. Qed.

Lemma dayGaps_length (l : list Payment.t) :
  List.length (dayGaps l) = (List.length l - 1)%nat.
Proof.
  induction l as [|a [|b l] IH]; try reflexivity.
  cbn [dayGaps List.length] in *. lia.
Qed.

(** ** The binary64 mean *)

Lemma divideByLength_floatMean (l : list float) :
  (1 <= List.length l)%nat ->
  divideByLength (sum l) (List.length l) = Some (floatMean l).
Proof.
  intros H. unfold divideByLength, floatMean, sum.
  destruct (List.length l); [lia | reflexivity].
Qed.

(** ** [analyzePaymentConsistency] in closed form *)

Lemma set_paymentHistory_same (r : Subscription) :
  set_paymentHistory (paymentHistory r) r = r.
Proof. now destruct r. Qed.

Lemma analyze_short (r : Subscription) :
  (List.length (paymentHistory r) < 2)%nat ->
  analyzePaymentConsistency r
  = Some (Analysis.mk false 0%float false None, r).
Proof.
  intros H. unfold analyzePaymentConsistency.
  destruct (Nat.ltb_spec (List.length (paymentHistory r)) 2); [reflexivity | lia].
Qed.

Lemma analyze_long (r : Subscription) :
  (2 <= List.length (paymentHistory r))%nat ->
  let sorted := sort compareDates (paymentHistory r) in
  let averageInterval := floatMean (dayGaps sorted) in
  let avgAmount := floatMean (map Payment.amount sorted) in
  analyzePaymentConsistency r =
    Some (Analysis.mk
            (forallb (withinTenPercent avgAmount) (map Payment.amount sorted))
            averageInterval
            ((25 <=? averageInterval)%float && (averageInterval <=? 35)%float)
            (Some (Z.of_nat (List.length (paymentHistory r)))),
          set_paymentHistory sorted r).
Proof.
  intros H sorted averageInterval avgAmount.
  assert (Hs : List.length sorted = List.length (paymentHistory r))
    by apply sort_length.
  unfold analyzePaymentConsistency.
  destruct (Nat.ltb_spec (List.length (paymentHistory r)) 2); [lia|].
  fold sorted.
  rewrite intervalsLoop_dayGaps by lia. cbn [bind].
  rewrite divideByLength_floatMean by (rewrite dayGaps_length; lia).
  cbn [bind].
  rewrite divideByLength_floatMean by (rewrite length_map; lia).
  cbn [bind paymentHistory set_paymentHistory]. now rewrite Hs.
Qed.

(** The analysis always returns: no run divides by zero or reads past the
    end of the array. *)
Lemma analyze_total (r : Subscription) :
  exists analysis r', analyzePaymentConsistency r = Some (analysis, r').
Proof.
  destruct (Nat.lt_ge_cases (List.length (paymentHistory r)) 2) as [H|H].
  - eexists _, _. now apply analyze_short.
  - eexists _, _. exact (analyze_long r H).
Qed.

(** The record after the analysis: only [paymentHistory] can differ, and it
    holds the same events in ascending order of date. *)
Lemma analyze_state (r : Subscription) (analysis : Analysis.t)
    (r' : Subscription) :
  analyzePaymentConsistency r = Some (analysis, r') ->
  r' = set_paymentHistory (sort compareDates (paymentHistory r)) r.
Proof.
  intros E.
  destruct (Nat.lt_ge_cases (List.length (paymentHistory r)) 2) as [H|H].
  - rewrite (analyze_short r H) in E. inversion E; subst.
    rewrite sort_sorted_id; [now rewrite set_paymentHistory_same|].
    destruct (paymentHistory r') as [|a [|b l]]; simpl in H; try lia;
      repeat constructor.
  - rewrite (analyze_long r H) in E. now inversion E.
Qed.

Lemma analyze_sorted_unchanged (r : Subscription) (analysis : Analysis.t)
    (r' : Subscription) :
  dateAscending (paymentHistory r) ->
  analyzePaymentConsistency r = Some (analysis, r') -> r' = r.
Proof.
  intros Hs E. rewrite (analyze_state _ _ _ E), sort_sorted_id by exact Hs.
  apply set_paymentHistory_same.
Qed.

(** ** Any ascending arrangement has the same day-gaps *)

Lemma sorted_Z_unique (l1 l2 : list Z) :
  Permutation l1 l2 ->
  StronglySorted Z.le l1 -> StronglySorted Z.le l2 -> l1 = l2.
Proof.
  revert l2. induction l1 as [|a l1 IH]; intros l2 Hp H1 H2.
  - now apply Permutation_nil in Hp.
  - destruct l2 as [|b l2].
    + apply Permutation_sym, Permutation_nil in Hp. discriminate.
    + inversion H1 as [|? ? H1s H1f]; subst.
      inversion H2 as [|? ? H2s H2f]; subst.
      assert (Hab : a = b).
      { assert (Ha : In a (b :: l2))
          by (eapply Permutation_in; [exact Hp | now left]).
        assert (Hb : In b (a :: l1))
          by (eapply Permutation_in;
              [apply Permutation_sym; exact Hp | now left]).
        rewrite Forall_forall in H1f, H2f.
        destruct Ha as [Ha|Ha]; [congruence|].
        destruct Hb as [Hb|Hb]; [congruence|].
        specialize (H1f _ Hb). specialize (H2f _ Ha). lia. }
      subst b. f_equal.
      apply IH; [eapply Permutation_cons_inv; exact Hp | assumption..].
Qed.

Lemma dateAscending_dates (l : list Payment.t) :
  dateAscending l -> StronglySorted Z.le (map Payment.date l).
Proof.
  unfold dateAscending. induction 1 as [|a l Hs IH Hf]; simpl.
  - constructor.
  - constructor; [exact IH|].
    rewrite Forall_map. exact Hf.
Qed.

Lemma dayGaps_dates (l1 l2 : list Payment.t) :
  map Payment.date l1 = map Payment.date l2 -> dayGaps l1 = dayGaps l2.
Proof.
  revert l2. induction l1 as [|a l1 IH]; intros [|b l2] H; try discriminate.
  - reflexivity.
  - cbn [map] in H. injection H as Hab Hrest.
    specialize (IH _ Hrest).
    destruct l1 as [|a' l1], l2 as [|b' l2]; try discriminate.
    + reflexivity.
    + cbn [dayGaps] in *. rewrite IH.
      cbn [map] in Hrest. injection Hrest as Hab' _.
      unfold intervalDays. now rewrite Hab, Hab'.
Qed.


(** An ascending arrangement of events of distinct dates is the only
    one. *)
Lemma ascending_distinct_unique (l1 l2 : list Payment.t) :
  Permutation l1 l2 -> dateAscending l1 -> dateAscending l2 ->
  NoDup (map Payment.date l2) -> l1 = l2.
Proof.
  intros Hp H1 H2 Hnd.
  assert (Hd : map Payment.date l1 = map Payment.date l2).
  { apply sorted_Z_unique;
      [now apply Permutation_map | now apply dateAscending_dates..]. }
  clear H1 H2. revert l2 Hp Hnd Hd.
  induction l1 as [|a l1 IH]; intros [|b l2] Hp Hnd Hd; try discriminate.
  - reflexivity.
  - cbn [map] in Hd, Hnd. injection Hd as Hab Hrest.
    inversion Hnd as [|? ? Hnotin Hnd']; subst.
    assert (Heq : a = b).
    { assert (Ha : In a (b :: l2))
        by (eapply Permutation_in; [exact Hp | now left]).
      destruct Ha as [Ha|Ha]; [now symmetry|].
      exfalso. apply Hnotin. rewrite <- Hab. now apply in_map. }
    subst b. f_equal.
    apply IH; [eapply Permutation_cons_inv; exact Hp | assumption..].
Qed.





(** ** Worked histories *)






(** ** [addPayment] in closed form *)

(** Missing fields of the event take their defaults. *)
Lemma storedEvent_defaults (now : Z) (amt : float) :
  storedEvent now (PaymentData.mk None amt None None None)
  = Payment.mk now amt "USD"%string EmptyString 0%Q.
Proof. reflexivity. Qed.

Lemma storedEvent_supplied (now d : Z) (amt : float) (conf : Q)
    (cur subject : string) :
  cur <> EmptyString -> subject <> EmptyString -> ~ (conf == 0)%Q ->
  storedEvent now
    (PaymentData.mk (Some d) amt (Some cur) (Some subject) (Some conf))
  = Payment.mk d amt cur subject conf.
Proof.
  intros Hc Hs Hq. unfold storedEvent. cbn.
  destruct cur; [congruence|]. destruct subject; [congruence|].
  destruct (Qeq_bool conf 0) eqn:E; [|reflexivity].
  apply Qeq_bool_iff in E. contradiction.
Qed.

Lemma recordPayment_count (now1 now2 : Z) (paymentData : PaymentData.t)
    (r : Subscription) :
  paymentCount (recordPayment now1 now2 paymentData r)
  = Z.of_nat (List.length (paymentHistory r)) + 1.
Proof.
  unfold recordPayment. cbn. rewrite length_app. cbn. lia.
Qed.

Lemma addPayment_eq (now1 now2 : Z) (paymentData : PaymentData.t)
    (r : Subscription) :
  let r1 := recordPayment now1 now2 paymentData r in
  let r2 := set_paymentHistory (historyAfterAdd now1 paymentData r) r1 in
  exists analysis,
    analyzePaymentConsistency r1 = Some (analysis, r2) /\
    addPayment now1 now2 paymentData r
    = Some (if 1 <? paymentCount r1 then updateFromAnalysis analysis r2
            else r1).
Proof.
  intros r1 r2.
  destruct (analyze_total r1) as (analysis & r' & E).
  assert (Hr' : r' = r2) by (rewrite (analyze_state _ _ _ E); reflexivity).
  subst r'. exists analysis. split; [exact E|].
  unfold addPayment. fold r1.
  destruct (1 <? paymentCount r1); [|reflexivity].
  rewrite E. reflexivity.
Qed.

Lemma historyAfterAdd_perm (now1 : Z) (paymentData : PaymentData.t)
    (r : Subscription) :
  Permutation (historyAfterAdd now1 paymentData r)
    (paymentHistory r ++ [storedEvent now1 paymentData]).
Proof. apply sort_perm. Qed.

Lemma historyAfterAdd_first (now1 : Z) (paymentData : PaymentData.t)
    (r : Subscription) :
  paymentHistory r = [] ->
  historyAfterAdd now1 paymentData r = [storedEvent now1 paymentData].
Proof. intros H. unfold historyAfterAdd. now rewrite H. Qed.

(** What every call of [addPayment] does to the history, the count and the
    last payment date. *)
Lemma addPayment_history (now1 now2 : Z) (paymentData : PaymentData.t)
    (r : Subscription) :
  exists r',
    addPayment now1 now2 paymentData r = Some r' /\
    paymentHistory r' = historyAfterAdd now1 paymentData r /\
    paymentCount r' = Z.of_nat (List.length (paymentHistory r')) /\
    List.length (paymentHistory r') = S (List.length (paymentHistory r)) /\
    lastPaymentDate r' = Some (orDate (PaymentData.date paymentData) now2).
Proof.
  destruct (addPayment_eq now1 now2 paymentData r) as (analysis & _ & E).
  pose proof (recordPayment_count now1 now2 paymentData r) as Hc.
  assert (Hlen : List.length (historyAfterAdd now1 paymentData r)
                 = S (List.length (paymentHistory r))).
  { rewrite (Permutation_length (historyAfterAdd_perm _ _ _)), length_app.
    cbn. lia. }
  eexists. split; [exact E|].
  destruct (Z.ltb_spec 1
              (paymentCount (recordPayment now1 now2 paymentData r))) as [H|H].
  - unfold updateFromAnalysis.
    destruct (Analysis.isConsistent analysis
              && Analysis.hasMonthlyPattern analysis);
      cbn; rewrite Hlen, length_app; cbn [List.length];
      repeat split; try reflexivity; now rewrite Nat.add_1_r.
  - assert (He : paymentHistory r = [])
      by (destruct (paymentHistory r);
          [reflexivity | rewrite Hc in H; cbn [List.length] in H; lia]).
    rewrite historyAfterAdd_first by exact He.
    cbn. rewrite He. repeat split.
Qed.

(** ** Confidence score *)

Lemma updateFromAnalysis_score (analysis : Analysis.t) (r : Subscription) :
  (confidenceScore r <= confidenceScore (updateFromAnalysis analysis r))%Q /\
  (Analysis.isConsistent analysis = true ->
   Analysis.hasMonthlyPattern analysis = true ->
   (8 <= confidenceScore (updateFromAnalysis analysis r))%Q).
Proof.
  unfold updateFromAnalysis.
  destruct (Analysis.isConsistent analysis), (Analysis.hasMonthlyPattern analysis);
    cbn; split; intros; try discriminate;
    try apply Qle_refl; try apply Q.le_max_l; apply Q.le_max_r.
Qed.

(** ** Traces from a fresh document *)

Lemma updateFromAnalysis_fields (analysis : Analysis.t) (r : Subscription) :
  let r' := updateFromAnalysis analysis r in
  isRecurring r' = true /\ hasPaymentHistory r' = true /\
  hasConsistentRenewalDate r' = Analysis.hasMonthlyPattern analysis /\
  paymentHistory r' = paymentHistory r /\ paymentCount r' = paymentCount r /\
  lastPaymentDate r' = lastPaymentDate r.
Proof.
  unfold updateFromAnalysis.
  destruct (Analysis.isConsistent analysis
            && Analysis.hasMonthlyPattern analysis); cbn; repeat split.
Qed.

Lemma addPayment_invariant (now1 now2 : Z) (paymentData : PaymentData.t)
    (n : nat) (r : Subscription) :
  traceInvariant n r ->
  exists r',
    addPayment now1 now2 paymentData r = Some r' /\ traceInvariant (S n) r'.
Proof.
  intros (Hc & Hl & Hr).
  destruct (addPayment_history now1 now2 paymentData r)
    as (r' & E & _ & Hc' & Hl' & _).
  exists r'. split; [exact E|].
  unfold traceInvariant. rewrite Hc', Hl', Hl.
  split; [reflexivity|]. split; [reflexivity|].
  destruct (addPayment_eq now1 now2 paymentData r) as (analysis & _ & E').
  assert (Er' : r' =
            if 1 <? paymentCount (recordPayment now1 now2 paymentData r)
            then updateFromAnalysis analysis
                   (set_paymentHistory (historyAfterAdd now1 paymentData r)
                      (recordPayment now1 now2 paymentData r))
            else recordPayment now1 now2 paymentData r) by congruence.
  rewrite Er', recordPayment_count, Hl.
  destruct (Z.ltb_spec 1 (Z.of_nat n + 1)) as [H|H].
  - destruct (updateFromAnalysis_fields analysis
                (set_paymentHistory (historyAfterAdd now1 paymentData r)
                   (recordPayment now1 now2 paymentData r))) as (-> & _).
    symmetry. apply Nat.leb_le. lia.
  - cbn. rewrite Hr.
    destruct n as [|n]; [reflexivity | lia].
Qed.

Lemma step_invariant (op : Op) (n : nat) (r : Subscription) :
  traceInvariant n r ->
  exists r',
    step op r = Some r' /\
    traceInvariant (if isAddPayment op then S n else n) r'.
Proof.
  intros Hinv. destruct op as [now1 now2 pd|now reason| |now|now|now m isNew];
    cbn [step isAddPayment].
  - now apply addPayment_invariant.
  - eexists. split; [reflexivity|]. exact Hinv.
  - destruct (analyze_total r) as (analysis & r' & E).
    exists r'. rewrite E. split; [reflexivity|].
    rewrite (analyze_state _ _ _ E).
    destruct Hinv as (Hc & Hl & Hr).
    unfold traceInvariant. cbn. now rewrite sort_length.
  - eexists. split; [reflexivity|]. exact Hinv.
  - eexists. split; [reflexivity|]. exact Hinv.
  - eexists. split; [reflexivity|].
    unfold preSave.
    destruct (isNone (nextRenewal r) || m || isNew);
      cbn [cancellationDate set_nextRenewal];
      destruct (cancellationDate r); exact Hinv.
Qed.

Lemma exec_invariant (ops : list Op) (n : nat) (r : Subscription) :
  traceInvariant n r ->
  exists r',
    exec ops r = Some r' /\ traceInvariant (addPaymentCalls ops + n) r'.
Proof.
  revert n r. induction ops as [|op ops IH]; intros n r Hinv.
  - exists r. split; [reflexivity | exact Hinv].
  - destruct (step_invariant op n r Hinv) as (r1 & E1 & Hinv1).
    destruct (IH _ _ Hinv1) as (r' & E & Hinv').
    exists r'. cbn [exec]. rewrite E1. cbn [bind]. split; [exact E|].
    unfold addPaymentCalls in *. cbn [filter].
    destruct (isAddPayment op); cbn [List.length] in *;
      [now rewrite Nat.add_succ_r in Hinv' | exact Hinv'].
Qed.

Lemma fresh_invariant (uid name : string) (amt : Q) (cur : Currency) (day : Z) :
  traceInvariant 0 (fresh uid name amt cur day).
Proof. repeat split. Qed.

(** ** Whole days: floor against truncation *)

Lemma floor_trunc_thresholds (x k : Z) :
  0 <= k ->
  (k <? x / Date.msPerDay) = (k <? Z.quot x Date.msPerDay) /\
  (x / Date.msPerDay <=? k) = (Z.quot x Date.msPerDay <=? k).
Proof.
  intros Hk. unfold Date.msPerDay.
  destruct (Z.le_gt_cases 0 x) as [Hx|Hx].
  - rewrite Z.quot_div_nonneg by lia. split; reflexivity.
  - assert (Hd : x / (1000 * 60 * 60 * 24) < 0)
      by (apply Z.div_lt_upper_bound; lia).
    assert (Hq : Z.quot x (1000 * 60 * 60 * 24) <= 0)
      by (apply Z.quot_le_upper_bound; lia).
    split.
    + destruct (Z.ltb_spec k (x / (1000 * 60 * 60 * 24))),
        (Z.ltb_spec k (Z.quot x (1000 * 60 * 60 * 24))); lia || reflexivity.
    + destruct (Z.leb_spec (x / (1000 * 60 * 60 * 24)) k),
        (Z.leb_spec (Z.quot x (1000 * 60 * 60 * 24)) k); lia || reflexivity.
Qed.

(** Flooring and truncating differ on a last payment dated in the future
    (here half a day ahead), though no threshold test tells them apart. *)
Lemma floor_differs_from_truncation :
  let r := set_lastPaymentDate (Some (days 1)) sample in
  let now := days 1 - 12 * 60 * 60 * 1000 in
  daysSinceLastPayment now r = -1 /\ daysTruncated now r = 0.
Proof. split; reflexivity. Qed.

(** ** The calendar *)

Lemma DayFromYear_succ (y : Z) :
  Date.DayFromYear (y + 1) = Date.DayFromYear y + Date.DaysInYear y.
Proof.
  unfold Date.DayFromYear, Date.DaysInYear, Date.InLeapYear.
  destruct (Z.eqb_spec (y mod 4) 0), (Z.eqb_spec (y mod 100) 0),
    (Z.eqb_spec (y mod 400) 0); cbn [andb orb negb];
    Z.div_mod_to_equations; lia.
Qed.

Lemma DayFromYear_lt (y y' : Z) :
  y < y' -> Date.DayFromYear y < Date.DayFromYear y'.
Proof. unfold Date.DayFromYear. intros H. Z.div_mod_to_equations. lia. Qed.

Lemma YearFromDay_spec (day : Z) :
  Date.DayFromYear (Date.YearFromDay day) <= day
  < Date.DayFromYear (Date.YearFromDay day + 1).
Proof.
  unfold Date.YearFromDay.
  set (y := 1970 + 400 * day / 146097).
  assert (H : Date.DayFromYear (y - 1) <= day < Date.DayFromYear (y + 2)).
  { unfold Date.DayFromYear, y. Z.div_mod_to_equations. lia. }
  destruct (Z.leb_spec (Date.DayFromYear (y + 1)) day).
  - replace (y + 1 + 1) with (y + 2) by lia. lia.
  - destruct (Z.leb_spec (Date.DayFromYear y) day).
    + lia.
    + replace (y - 1 + 1) with y by lia. lia.
Qed.

Lemma YearFromDay_unique (day y : Z) :
  Date.DayFromYear y <= day < Date.DayFromYear (y + 1) ->
  Date.YearFromDay day = y.
Proof.
  intros H. pose proof (YearFromDay_spec day) as H'.
  destruct (Z.lt_trichotomy (Date.YearFromDay day) y) as [Hlt|[Heq|Hgt]].
  - destruct (Z.eq_dec (Date.YearFromDay day + 1) y) as [E|E].
    + rewrite E in H'. lia.
    + pose proof (DayFromYear_lt (Date.YearFromDay day + 1) y). lia.
  - exact Heq.
  - destruct (Z.eq_dec (y + 1) (Date.YearFromDay day)) as [E|E].
    + rewrite E in H. lia.
    + pose proof (DayFromYear_lt (y + 1) (Date.YearFromDay day)). lia.
Qed.

Lemma MakeDate_Day (day ms : Z) :
  0 <= ms < Date.msPerDay ->
  Date.Day (Date.MakeDate day ms) = day /\
  Date.TimeWithinDay (Date.MakeDate day ms) = ms.
Proof.
  unfold Date.Day, Date.TimeWithinDay, Date.MakeDate, Date.msPerDay.
  intros H. Z.div_mod_to_equations. lia.
Qed.

Lemma Day_decompose (t : Z) :
  t = Date.MakeDate (Date.Day t) (Date.TimeWithinDay t) /\
  0 <= Date.TimeWithinDay t < Date.msPerDay.
Proof.
  unfold Date.Day, Date.TimeWithinDay, Date.MakeDate, Date.msPerDay.
  Z.div_mod_to_equations. lia.
Qed.

Lemma DaysInMonth_bounds (y m : Z) :
  0 <= m <= 11 -> 28 <= Date.DaysInMonth y m <= 31.
Proof.
  intros H. unfold Date.DaysInMonth.
  month_cases m; destruct (Date.InLeapYear y); month_table; lia.
Qed.

Lemma MonthStart_DaysInYear (y : Z) :
  Date.MonthStart (Date.InLeapYear y) 11 + 31 = Date.DaysInYear y.
Proof. unfold Date.DaysInYear. destruct (Date.InLeapYear y); reflexivity. Qed.

(** A day of the month within the month's length is read back as it was
    written. *)
Lemma MonthFromDay_MonthStart (leap : bool) (y m d : Z) :
  Date.InLeapYear y = leap ->
  0 <= m <= 11 -> 1 <= d <= Date.DaysInMonth y m ->
  Date.MonthFromDay leap (Date.MonthStart leap m + d - 1) = m /\
  0 <= Date.MonthStart leap m + d - 1 < Date.DaysInYear y.
Proof.
  intros Hl Hm Hd. unfold Date.DaysInMonth, Date.DaysInYear in *.
  rewrite Hl in *. unfold Date.MonthFromDay.
  month_cases m; destruct leap; month_table; (split; [|lia]);
    decide_tests; reflexivity.
Qed.

Lemma MonthFromDay_range (leap : bool) (y dayWithinYear : Z) :
  Date.InLeapYear y = leap ->
  0 <= dayWithinYear < Date.DaysInYear y ->
  let m := Date.MonthFromDay leap dayWithinYear in
  0 <= m <= 11 /\
  1 <= dayWithinYear - Date.MonthStart leap m + 1 <= Date.DaysInMonth y m.
Proof.
  intros Hl Hd. unfold Date.DaysInMonth, Date.DaysInYear in *.
  rewrite Hl in *. unfold Date.MonthFromDay.
  destruct leap; month_table;
    repeat match goal with
      | |- context [?a <? ?b] =>
          destruct (Z.ltb_spec a b); [cbv zeta; month_table; lia|]
      end; cbv zeta; month_table; lia.
Qed.

Lemma MakeDay_month (y m d : Z) :
  0 <= m <= 11 ->
  Date.MakeDay y m d
  = Date.DayFromYear y + Date.MonthStart (Date.InLeapYear y) m + d - 1.
Proof.
  intros H. unfold Date.MakeDay.
  rewrite Z.div_small, Z.mod_small, Z.add_0_r by lia. reflexivity.
Qed.

Lemma at_parts (y m d ms : Z) :
  0 <= m <= 11 -> 1 <= d <= Date.DaysInMonth y m ->
  0 <= ms < Date.msPerDay ->
  Date.YearFromTime (Date.at_ y m d ms) = y /\
  Date.MonthFromTime (Date.at_ y m d ms) = m /\
  Date.DateFromTime (Date.at_ y m d ms) = d /\
  Date.TimeWithinDay (Date.at_ y m d ms) = ms.
Proof.
  intros Hm Hd Hms.
  destruct (MonthFromDay_MonthStart _ y m d eq_refl Hm Hd) as (Hmonth & Hrange).
  destruct (MakeDate_Day (Date.MakeDay y m d) ms Hms) as (Hday & Htime).
  assert (Hy : Date.YearFromTime (Date.at_ y m d ms) = y).
  { unfold Date.YearFromTime, Date.at_. rewrite Hday.
    apply YearFromDay_unique.
    rewrite MakeDay_month, DayFromYear_succ by exact Hm. lia. }
  assert (Hw : Date.DayWithinYear (Date.at_ y m d ms)
               = Date.MonthStart (Date.InLeapYear y) m + d - 1).
  { unfold Date.DayWithinYear. rewrite Hy. unfold Date.at_. rewrite Hday.
    rewrite MakeDay_month by exact Hm. lia. }
  assert (Hmo : Date.MonthFromTime (Date.at_ y m d ms) = m).
  { unfold Date.MonthFromTime. rewrite Hy, Hw. exact Hmonth. }
  split; [exact Hy|]. split; [exact Hmo|]. split.
  - unfold Date.DateFromTime. rewrite Hmo, Hy, Hw. lia.
  - unfold Date.at_. exact Htime.
Qed.

Lemma fields_at (y m d ms : Z) :
  0 <= m <= 11 -> 1 <= d <= Date.DaysInMonth y m ->
  0 <= ms < Date.msPerDay ->
  Date.fields (Date.at_ y m d ms) = (y, m, d, ms).
Proof.
  intros Hm Hd Hms.
  destruct (at_parts y m d ms Hm Hd Hms) as (Hy & Hmo & Hda & Hti).
  unfold Date.fields, Date.getFullYear, Date.getMonth, Date.getDate.
  rewrite Hy, Hmo, Hda, Hti. reflexivity.
Qed.

(** Every time value is the date and time of day it reads as. *)
Lemma fields_decompose (t : Z) :
  let y := Date.getFullYear t in
  let m := Date.getMonth t in
  let d := Date.getDate t in
  let ms := Date.TimeWithinDay t in
  t = Date.at_ y m d ms /\
  0 <= m <= 11 /\ 1 <= d <= Date.DaysInMonth y m /\
  0 <= ms < Date.msPerDay.
Proof.
  destruct (Day_decompose t) as (Ht & Hms).
  pose proof (YearFromDay_spec (Date.Day t)) as Hy.
  rewrite DayFromYear_succ in Hy.
  destruct (MonthFromDay_range _ (Date.YearFromTime t) (Date.DayWithinYear t)
              eq_refl) as (Hm & Hd).
  { unfold Date.DayWithinYear, Date.YearFromTime. lia. }
  cbv zeta. split; [|now repeat split].
  unfold Date.at_, Date.getFullYear, Date.getMonth, Date.getDate.
  rewrite MakeDay_month by exact Hm.
  unfold Date.DateFromTime, Date.MonthFromTime.
  rewrite Ht at 1. f_equal. unfold Date.DayWithinYear. lia.
Qed.

(** Days past the end of a month run into the next month, and day 0 is the
    last day of the month before. *)
Lemma at_carry (y m k ms : Z) :
  0 <= m <= 11 ->
  Date.at_ y m (Date.DaysInMonth y m + k) ms
  = Date.at_ (fst (nextMonth y m)) (snd (nextMonth y m)) k ms.
Proof.
  intros Hm. unfold Date.at_, nextMonth. f_equal.
  destruct (Z.eqb_spec m 11) as [->|Hne]; cbn [fst snd].
  - rewrite !MakeDay_month by lia. rewrite DayFromYear_succ.
    rewrite <- MonthStart_DaysInYear. unfold Date.DaysInMonth.
    change (11 =? 11) with true. cbv iota.
    change (Date.MonthStart (Date.InLeapYear (y + 1)) 0) with 0. lia.
  - rewrite !MakeDay_month by lia. unfold Date.DaysInMonth.
    destruct (Z.eqb_spec m 11); [lia|]. lia.
Qed.

Lemma MakeDay_next (y m d : Z) :
  0 <= m <= 11 ->
  Date.MakeDay y (m + 1) d
  = Date.MakeDay (fst (nextMonth y m)) (snd (nextMonth y m)) d.
Proof.
  intros Hm. unfold nextMonth.
  destruct (Z.eqb_spec m 11) as [->|Hne]; cbn [fst snd]; [|reflexivity].
  unfold Date.MakeDay. change (11 + 1) with 12.
  change (12 / 12) with 1. change (12 mod 12) with 0.
  change (0 / 12) with 0. change (0 mod 12) with 0.
  rewrite !Z.add_0_r. reflexivity.
Qed.

Lemma nextMonth_range (y m : Z) :
  0 <= m <= 11 -> 0 <= snd (nextMonth y m) <= 11.
Proof.
  intros H. unfold nextMonth.
  destruct (Z.eqb_spec m 11); cbn [snd]; lia.
Qed.

Lemma at_linear (y m d ms : Z) :
  Date.at_ y m d ms = Date.at_ y m 0 0 + d * 86400000 + ms.
Proof.
  unfold Date.at_, Date.MakeDate, Date.MakeDay, Date.msPerDay. ring.
Qed.

Lemma make_at (y m d : Z) :
  y < 0 \/ 99 < y -> Date.make y m d = Date.at_ y m d 0.
Proof.
  intros H. unfold Date.make.
  destruct (Z.leb_spec 0 y), (Z.leb_spec y 99); cbn [andb];
    reflexivity || lia.
Qed.

Lemma at_next (y m d ms : Z) :
  0 <= m <= 11 ->
  Date.at_ y (m + 1) d ms
  = Date.at_ (fst (nextMonth y m)) (snd (nextMonth y m)) d ms.
Proof. intros Hm. unfold Date.at_. now rewrite MakeDay_next. Qed.

(** [calculateNextRenewal] on every input: the result is the start of day
    [renewalDay] of the target month, or of the last day of that month when
    it is shorter; it is after the current date except on the last day of a
    month shorter than [renewalDay], where it is the start of the current
    day. *)
Lemma calculateNextRenewal_cases (now : Z) (r : Subscription) :
  1 <= renewalDay r <= 31 ->
  Date.getFullYear now < 0 \/ 99 < Date.getFullYear now ->
  let result := calculateNextRenewal now r in
  let target := targetMonth now (renewalDay r) in
  let monthLength :=
    Date.DaysInMonth (Date.getFullYear now) (Date.getMonth now) in
  Date.fields result
  = (fst target, snd target,
     Z.min (renewalDay r) (Date.DaysInMonth (fst target) (snd target)), 0) /\
  (now < result <->
   ~ (monthLength < renewalDay r /\ Date.getDate now = monthLength)).
Proof.
  intros Hrd Hyear.
  destruct (fields_decompose now) as (Hnow & Hm & Hd0 & Ht0).
  unfold calculateNextRenewal, targetMonth.
  set (y := Date.getFullYear now) in *.
  set (m := Date.getMonth now) in *.
  set (d0 := Date.getDate now) in *.
  set (t0 := Date.TimeWithinDay now) in *.
  set (rd := renewalDay r) in *.
  rewrite make_at by exact Hyear.
  pose proof (DaysInMonth_bounds y m Hm) as Hdim.
  pose proof (nextMonth_range y m Hm) as Hm'.
  pose proof (DaysInMonth_bounds (fst (nextMonth y m)) _ Hm') as Hdim'.
  pose proof (nextMonth_range (fst (nextMonth y m)) _ Hm') as Hm''.
  pose proof (DaysInMonth_bounds
                (fst (nextMonth (fst (nextMonth y m)) (snd (nextMonth y m))))
                _ Hm'') as Hdim''.
  pose proof (at_carry y m) as Hcarry.
  pose proof (at_carry (fst (nextMonth y m)) (snd (nextMonth y m))) as Hcarry'.
  assert (Hms : 0 <= 0 < Date.msPerDay) by (unfold Date.msPerDay; lia).
  assert (Hnow' : now = Date.at_ y m 0 0 + d0 * 86400000 + t0)
    by (rewrite Hnow at 1; apply at_linear).
  assert (Hc : Date.at_ y m rd 0 = Date.at_ y m 0 0 + rd * 86400000 + 0)
    by apply at_linear.
  assert (Ht0' : 0 <= t0 < 86400000) by exact Ht0.
  cbv zeta.
  destruct (Z.le_gt_cases rd (Date.DaysInMonth y m)) as [Hfit|Hover].
  - (* The candidate is day [rd] of the current month. *)
    destruct (at_parts y m rd 0 Hm) as (Ey & Em & Ed & Et); [lia | lia |].
    destruct (Z.leb_spec (Date.at_ y m rd 0) now) as [Hle|Hgt].
    + (* Not after now: advance a month. *)
      assert (Hrd0 : rd <= d0) by lia.
      unfold Date.setMonth, Date.getMonth. rewrite Ey, Em, Ed, Et.
      rewrite at_next by exact Hm.
      set (y' := fst (nextMonth y m)) in *.
      set (m' := snd (nextMonth y m)) in *.
      assert (Hnext : Date.at_ y' m' rd 0
                      = Date.at_ y m 0 0
                        + (Date.DaysInMonth y m + rd) * 86400000 + 0).
      { rewrite <- (Hcarry rd 0 Hm). apply at_linear. }
      destruct (Z.le_gt_cases rd (Date.DaysInMonth y' m')) as [Hfit'|Hover'].
      * destruct (at_parts y' m' rd 0 Hm') as (Ey' & Em' & Ed' & Et');
          [lia | lia |].
        unfold Date.getDate. rewrite Ed', Z.eqb_refl. cbn [negb].
        rewrite fields_at by lia.
        rewrite Z.min_l by lia. split; [reflexivity|].
        split; [lia | lia].
      * set (y'' := fst (nextMonth y' m')) in *.
        set (m'' := snd (nextMonth y' m')) in *.
        assert (Hroll : Date.at_ y' m' rd 0
                        = Date.at_ y'' m'' (rd - Date.DaysInMonth y' m') 0).
        { rewrite <- (Hcarry' (rd - Date.DaysInMonth y' m') 0 Hm').
          f_equal. lia. }
        destruct (at_parts y'' m'' (rd - Date.DaysInMonth y' m') 0 Hm'')
          as (Ey'' & Em'' & Ed'' & Et''); [lia | lia |].
        unfold Date.getDate. rewrite Hroll, Ed''.
        destruct (Z.eqb_spec (rd - Date.DaysInMonth y' m') rd); [lia|].
        cbn [negb]. unfold Date.setDate. rewrite Ey'', Em'', Et''.
        assert (Hlast : Date.at_ y'' m'' 0 0
                        = Date.at_ y' m' (Date.DaysInMonth y' m') 0).
        { rewrite <- (Hcarry' 0 0 Hm'). f_equal. lia. }
        rewrite Hlast, fields_at by lia.
        rewrite Z.min_r by lia. split; [reflexivity|].
        assert (Hval : Date.at_ y' m' (Date.DaysInMonth y' m') 0
                       = Date.at_ y m 0 0
                         + (Date.DaysInMonth y m + Date.DaysInMonth y' m')
                           * 86400000 + 0).
        { rewrite <- (Hcarry (Date.DaysInMonth y' m') 0 Hm). apply at_linear. }
        split; [lia | lia].
    + (* After now: the candidate stands. *)
      unfold Date.getDate. rewrite Ed, Z.eqb_refl. cbn [negb fst snd].
      rewrite fields_at by lia.
      rewrite Z.min_l by lia. split; [reflexivity|].
      split; [lia | intros _; lia].
  - (* Day [rd] runs over the end of the current month. *)
    set (y' := fst (nextMonth y m)) in *.
    set (m' := snd (nextMonth y m)) in *.
    assert (Hroll : Date.at_ y m rd 0
                    = Date.at_ y' m' (rd - Date.DaysInMonth y m) 0).
    { rewrite <- (Hcarry (rd - Date.DaysInMonth y m) 0 Hm). f_equal. lia. }
    destruct (at_parts y' m' (rd - Date.DaysInMonth y m) 0 Hm')
      as (Ey' & Em' & Ed' & Et'); [lia | lia |].
    destruct (Z.leb_spec (Date.at_ y m rd 0) now) as [Hle|Hgt]; [lia|].
    unfold Date.getDate. rewrite Hroll, Ed'.
    destruct (Z.eqb_spec (rd - Date.DaysInMonth y m) rd); [lia|].
    cbn [negb fst snd]. unfold Date.setDate. rewrite Ey', Em', Et'.
    assert (Hlast : Date.at_ y' m' 0 0 = Date.at_ y m (Date.DaysInMonth y m) 0).
    { rewrite <- (Hcarry 0 0 Hm). f_equal. lia. }
    rewrite Hlast, fields_at by lia.
    rewrite Z.min_r by lia. split; [reflexivity|].
    pose proof (at_linear y m (Date.DaysInMonth y m) 0) as Hval.
    split.
    + intros Hlt [_ Hd]. lia.
    + intros Hnot. assert (d0 < Date.DaysInMonth y m) by lia. lia.
Qed.

(** The case analysis at two dates of April 2023 with renewal day 31: in
    mid month the renewal is 30 April, after the current date; on 30 April
    itself it is not after the current date. *)
Lemma calculateNextRenewal_cases_example :
  let midMonth := Date.at_ 2023 3 15 0 in
  let lastDay := Date.at_ 2023 3 30 0 in
  (Date.fields (calculateNextRenewal midMonth sample) = (2023, 3, 30, 0) /\
   midMonth < calculateNextRenewal midMonth sample) /\
  (Date.fields (calculateNextRenewal lastDay sample) = (2023, 3, 30, 0) /\
   ~ lastDay < calculateNextRenewal lastDay sample).
Proof.
  intros midMonth lastDay.
  assert (Hrd : 1 <= renewalDay sample <= 31) by (cbn; lia).
  split.
  - destruct (calculateNextRenewal_cases midMonth sample Hrd) as (Hf & Hlt).
    { right. vm_compute. reflexivity. }
    split; [rewrite Hf; vm_compute; reflexivity|].
    apply Hlt. intros [_ H]. vm_compute in H. discriminate.
  - destruct (calculateNextRenewal_cases lastDay sample Hrd) as (Hf & Hlt).
    { right. vm_compute. reflexivity. }
    split; [rewrite Hf; vm_compute; reflexivity|].
    intros H. apply Hlt in H. apply H.
    split; vm_compute; reflexivity.
Qed.

(** * The claims *)




(** C2. [isLikelyValid] returns the verdict of the first matching rule of
    the ordered rule list, with the days since the last payment taken as
    whole days truncated toward zero (999 when no payment was recorded). *)
Theorem isLikelyValid_rules (now : Z) (r : Subscription) :
  isLikelyValid now r = firstMatch (validityRules (daysTruncated now r) r).
Proof.
  unfold isLikelyValid, daysSinceLastPayment, daysTruncated, validityRules.
  cbn [firstMatch].
  destruct (lastPaymentDate r) as [last|]; [|reflexivity].
  change (1000 * 60 * 60 * 24) with Date.msPerDay.
  destruct (floor_trunc_thresholds (now - last) 180) as [-> _]; [lia|].
  destruct (floor_trunc_thresholds (now - last) 90) as [_ ->]; [lia|].
  destruct (floor_trunc_thresholds (now - last) 60) as [_ ->]; [lia|].
  destruct (floor_trunc_thresholds (now - last) 30) as [_ ->]; [lia|].
  reflexivity.
Qed.

(** C3, at the input where the code departs from it.  On the last day of a
    month shorter than [renewalDay] (here 30 April 2023 at noon, renewal
    day 31) [calculateNextRenewal] returns the start of that same day, a
    date that is not after the current date. *)
Theorem calculateNextRenewal_short_month_last_day :
  let now := Date.at_ 2023 3 30 (12 * 60 * 60 * 1000) in
  renewalDay sample = 31 /\
  Date.fields now = (2023, 3, 30, 12 * 60 * 60 * 1000) /\
  Date.fields (calculateNextRenewal now sample) = (2023, 3, 30, 0) /\
  calculateNextRenewal now sample < now.
Proof. vm_compute. repeat split. Qed.

(** C4, at the input where the code departs from it.  The analysis sorts
    [paymentHistory] itself: a history recorded out of date order is in a
    different order after the call. *)
Theorem analyzePaymentConsistency_reorders_history :
  let r := set_paymentHistory [eventOn 60; eventOn 30] sample in
  exists analysis r',
    analyzePaymentConsistency r = Some (analysis, r') /\
    paymentHistory r = [eventOn 60; eventOn 30] /\
    paymentHistory r' = [eventOn 30; eventOn 60] /\
    paymentHistory r' <> paymentHistory r.
Proof.
  intros r.
  destruct (analyze_total r) as (analysis & r' & E).
  exists analysis, r'. split; [exact E|].
  rewrite (analyze_state _ _ _ E).
  split; [reflexivity|]. split; [reflexivity|].
  cbn. intros H. injection H as H _. revert H. vm_compute. discriminate.
Qed.

(** C5, at the input where the code departs from it.  A payment dated
    before the recorded one is pushed and then moved to the front by the
    analysis: the history is not the old history with the event appended,
    and the element at index 0 has changed. *)
Theorem addPayment_reorders_history :
  exists r1 r2,
    addPayment 0 0 (paymentOn 60) sample = Some r1 /\
    paymentHistory r1 = [eventOn 60] /\
    addPayment 0 0 (paymentOn 30) r1 = Some r2 /\
    storedEvent 0 (paymentOn 30) = eventOn 30 /\
    paymentHistory r2 = [eventOn 30; eventOn 60] /\
    paymentHistory r2 <> paymentHistory r1 ++ [eventOn 30] /\
    nth_error (paymentHistory r2) 0 <> nth_error (paymentHistory r1) 0.
Proof.
  destruct (addPayment_history 0 0 (paymentOn 60) sample)
    as (r1 & E1 & H1 & _).
  destruct (addPayment_history 0 0 (paymentOn 30) r1) as (r2 & E2 & H2 & _).
  exists r1, r2.
  assert (H1' : paymentHistory r1 = [eventOn 60]) by (rewrite H1; reflexivity).
  assert (H2' : paymentHistory r2 = [eventOn 30; eventOn 60]).
  { rewrite H2. unfold historyAfterAdd. rewrite H1'. reflexivity. }
  rewrite H1', H2'.
  repeat split; try assumption; try reflexivity.
  - cbn. intros H. injection H as H _. revert H. vm_compute. discriminate.
  - cbn. intros H. injection H as H. revert H. vm_compute. discriminate.
Qed.

(** C6. [addPayment] never lowers [confidenceScore]; and when the call
    leaves [paymentCount > 1] and its pattern analysis reports both
    [isConsistent] and [hasMonthlyPattern], the score afterwards is at
    least 8. *)
Theorem addPayment_confidence_ratchet (now1 now2 : Z)
    (paymentData : PaymentData.t) (r : Subscription) :
  exists r',
    addPayment now1 now2 paymentData r = Some r' /\
    (confidenceScore r <= confidenceScore r')%Q /\
    (forall analysis r2,
       analyzePaymentConsistency (recordPayment now1 now2 paymentData r)
       = Some (analysis, r2) ->
       1 < paymentCount r' ->
       Analysis.isConsistent analysis = true ->
       Analysis.hasMonthlyPattern analysis = true ->
       (8 <= confidenceScore r')%Q).
Proof.
  destruct (addPayment_eq now1 now2 paymentData r) as (analysis & Ea & E).
  destruct (addPayment_history now1 now2 paymentData r)
    as (r' & E' & _ & Hc & Hl & _).
  exists r'. split; [exact E'|].
  assert (Er' : r' =
            if 1 <? paymentCount (recordPayment now1 now2 paymentData r)
            then updateFromAnalysis analysis
                   (set_paymentHistory (historyAfterAdd now1 paymentData r)
                      (recordPayment now1 now2 paymentData r))
            else recordPayment now1 now2 paymentData r) by congruence.
  pose proof (recordPayment_count now1 now2 paymentData r) as Hc1.
  destruct (updateFromAnalysis_score analysis
              (set_paymentHistory (historyAfterAdd now1 paymentData r)
                 (recordPayment now1 now2 paymentData r))) as (Hle & H8).
  split.
  - rewrite Er'.
    destruct (1 <? paymentCount (recordPayment now1 now2 paymentData r));
      [exact Hle | apply Qle_refl].
  - intros analysis' r2 Ea' Hgt Hcons Hmon.
    assert (analysis' = analysis) by congruence. subst analysis'.
    rewrite Hc, Hl in Hgt.
    destruct (Z.ltb_spec 1
                (paymentCount (recordPayment now1 now2 paymentData r)));
      [|lia].
    rewrite Er'. now apply H8.
Qed.

Lemma addPayment_confidence_ratchet_witness :
  exists r',
    addPayment 0 0 (paymentOn 90)
      (set_paymentHistory [eventOn 30; eventOn 60] sample) = Some r' /\
    (confidenceScore sample == 0)%Q /\
    (8 <= confidenceScore r')%Q.
Proof.
  destruct (addPayment_confidence_ratchet 0 0 (paymentOn 90)
              (set_paymentHistory [eventOn 30; eventOn 60] sample))
    as (r' & E & _ & H8).
  exists r'. split; [exact E|]. split; [reflexivity|].
  vm_compute in E. injection E as E.
  eapply H8.
  - vm_compute. reflexivity.
  - rewrite <- E. reflexivity.
  - reflexivity.
  - reflexivity.
Defined.

(** C7. From a fresh document, after any trace of operations
    ([addPayment], [cancelSubscription], [analyzePaymentConsistency],
    [isLikelyValid], and also [calculateNextRenewal] and saving),
    [isRecurring] is true exactly when the trace holds at least two calls of
    [addPayment]: false before the second call, true from it on.  And in
    every state so reached [isRecurring] is true only if
    [paymentCount > 1]. *)
Theorem isRecurring_from_second_payment (uid name : string) (amt : Q)
    (cur : Currency) (day : Z) (ops : list Op) :
  exists r,
    exec ops (fresh uid name amt cur day) = Some r /\
    (isRecurring r = true <-> (2 <= addPaymentCalls ops)%nat) /\
    (isRecurring r = true -> 1 < paymentCount r).
Proof.
  destruct (exec_invariant ops 0 _ (fresh_invariant uid name amt cur day))
    as (r & E & Hc & _ & Hr).
  exists r. split; [exact E|].
  rewrite Nat.add_0_r in Hc, Hr. rewrite Hr, Hc, Nat.leb_le.
  split; [reflexivity | lia].
Qed.

Lemma isRecurring_from_second_payment_witness :
  exists r,
    exec [OpAddPayment 0 0 (paymentOn 30); OpIsLikelyValid (days 31);
          OpAddPayment 0 0 (paymentOn 60); OpCancelSubscription (days 61) None;
          OpAnalyzePaymentConsistency; OpSave (days 62) false false] sample
    = Some r /\
    isRecurring r = true /\ 1 < paymentCount r.
Proof.
  destruct (isRecurring_from_second_payment "user" "Streaming" 10%Q USD 31
              [OpAddPayment 0 0 (paymentOn 30); OpIsLikelyValid (days 31);
               OpAddPayment 0 0 (paymentOn 60);
               OpCancelSubscription (days 61) None;
               OpAnalyzePaymentConsistency; OpSave (days 62) false false])
    as (r & E & Hiff & Hgt).
  exists r. split; [exact E|].
  assert (H : isRecurring r = true) by (apply Hiff; cbn; lia).
  split; [exact H | exact (Hgt H)].
Defined.

(** C8. With fewer than two events the analysis returns exactly
    [{isConsistent: false, averageInterval: 0, hasMonthlyPattern: false}]
    and leaves the record as it is; no run of the analysis divides by zero
    (or reads past the end of the array); and when the two divisions are
    reached there are at least two payments and at least one interval. *)
Theorem analyzePaymentConsistency_guard :
  (forall r : Subscription,
     (List.length (paymentHistory r) < 2)%nat ->
     analyzePaymentConsistency r
     = Some (Analysis.mk false 0%float false None, r)) /\
  (forall r : Subscription,
     exists analysis r', analyzePaymentConsistency r = Some (analysis, r')) /\
  (forall r : Subscription,
     (2 <= List.length (paymentHistory r))%nat ->
     let sortedPayments := sort compareDates (paymentHistory r) in
     let amounts := map Payment.amount sortedPayments in
     exists intervals,
       intervalsLoop sortedPayments 1 (List.length sortedPayments - 1) []
       = Some intervals /\
       (1 <= List.length intervals)%nat /\
       (2 <= List.length amounts)%nat /\
       divideByLength (sum intervals) (List.length intervals) <> None /\
       divideByLength (sum amounts) (List.length amounts) <> None).
Proof.
  split; [exact analyze_short|]. split; [exact analyze_total|].
  intros r H sortedPayments amounts.
  assert (Hs : List.length sortedPayments = List.length (paymentHistory r))
    by apply sort_length.
  exists (dayGaps sortedPayments).
  split; [apply intervalsLoop_dayGaps; lia|].
  assert (Hi : (1 <= List.length (dayGaps sortedPayments))%nat)
    by (rewrite dayGaps_length; lia).
  assert (Ha : (2 <= List.length amounts)%nat)
    by (unfold amounts; rewrite length_map; lia).
  split; [exact Hi|]. split; [exact Ha|].
  split.
  - destruct (List.length (dayGaps sortedPayments)); [lia | discriminate].
  - destruct (List.length amounts); [lia | discriminate].
Qed.

Lemma analyzePaymentConsistency_guard_witness :
  analyzePaymentConsistency (set_paymentHistory [eventOn 30] sample)
  = Some (Analysis.mk false 0%float false None,
          set_paymentHistory [eventOn 30] sample) /\
  exists intervals,
    intervalsLoop [eventOn 30; eventOn 60] 1 1 [] = Some intervals /\
    (1 <= List.length intervals)%nat.
Proof.
  destruct analyzePaymentConsistency_guard as (Hshort & _ & Hlong).
  split.
  - apply Hshort. cbn. lia.
  - destruct (Hlong (set_paymentHistory [eventOn 60; eventOn 30] sample))
      as (intervals & E & Hi & _).
    + cbn. lia.
    + exists intervals. split; [exact E | exact Hi].
Defined.

(** C9. [cancelSubscription(reason)] sets [isActive] to false,
    [cancellationDate] to the current time and [cancellationReason] to
    [reason] ("User cancelled" when no reason is passed), and leaves every
    other field as it was; the next save, and every save of a document whose
    [cancellationDate] is set, leaves [nextRenewal] null. *)
Theorem cancelSubscription_effect (now : Z) (reason : option string)
    (r : Subscription) :
  cancelSubscription now reason r
  = mkSubscription (userId r) (serviceName r) (amount r) (currency r)
      (renewalDay r) (nextRenewal r) (category r) (description r) false
      (detectedFromEmail r) (paymentHistory r) (Some now)
      (match reason with
       | Some text => text
       | None => "User cancelled"%string
       end)
      (lastPaymentDate r) (isRecurring r) (confidenceScore r)
      (hasPaymentHistory r) (hasConsistentRenewalDate r) (paymentCount r) /\
  (forall (saveTime : Z) (renewalDayModified isNew : bool),
     nextRenewal
       (preSave saveTime renewalDayModified isNew
          (cancelSubscription now reason r)) = None) /\
  (forall (cancelled saveTime : Z) (renewalDayModified isNew : bool)
          (r0 : Subscription),
     let saved :=
       preSave saveTime renewalDayModified isNew
         (set_cancellationDate (Some cancelled) r0) in
     nextRenewal saved = None /\ cancellationDate saved = Some cancelled).
Proof.
  split; [|split].
  - destruct reason; reflexivity.
  - intros saveTime m isNew. unfold preSave.
    destruct (isNone (nextRenewal (cancelSubscription now reason r)) || m
              || isNew); reflexivity.
  - intros cancelled saveTime m isNew r0. unfold preSave.
    destruct (isNone (nextRenewal (set_cancellationDate (Some cancelled) r0))
              || m || isNew); split; reflexivity.
Qed.

(** C10. After [addPayment(event)] with [event.date] supplied,
    [lastPaymentDate] is [event.date], whatever the record held before.  So
    it can move backwards: recording a payment of day 60 and then one of day
    30 leaves [lastPaymentDate] at day 30, the date of the payment recorded
    last, while the latest date in [paymentHistory] is day 60. *)
Theorem addPayment_lastPaymentDate :
  (forall (now1 now2 d : Z) (amt : float) (cur subject : option string)
          (conf : option Q) (r : Subscription),
     exists r',
       addPayment now1 now2 (PaymentData.mk (Some d) amt cur subject conf) r
       = Some r' /\
       lastPaymentDate r' = Some d) /\
  (exists r1 r2,
     exec [OpAddPayment 0 0 (paymentOn 60)] sample = Some r1 /\
     addPayment 0 0 (paymentOn 30) r1 = Some r2 /\
     lastPaymentDate r1 = Some (days 60) /\
     lastPaymentDate r2 = Some (days 30) /\
     latestDate (paymentHistory r2) = Some (days 60) /\
     days 30 < days 60).
Proof.
  split.
  - intros now1 now2 d amt cur subject conf r.
    destruct (addPayment_history now1 now2
                (PaymentData.mk (Some d) amt cur subject conf) r)
      as (r' & E & _ & _ & _ & Hlast).
    exists r'. split; [exact E | exact Hlast].
  - eexists _, _. vm_compute. repeat split.
Qed.

(** * Further properties *)

(** ** The in-place sort *)

Lemma sort_fixed_iff (l : list Payment.t) :
  sort compareDates l = l <-> dateAscending l.
Proof.
  split.
  - intros H. rewrite <- H. apply sort_dateAscending.
  - apply sort_sorted_id.
Qed.

Lemma set_paymentHistory_twice (h1 h2 : list Payment.t) (r : Subscription) :
  set_paymentHistory h2 (set_paymentHistory h1 r) = set_paymentHistory h2 r.
Proof. reflexivity. Qed.

(** X1. After [analyzePaymentConsistency] the history holds the same events
    in ascending order of date, events of one date in their earlier
    relative order; no other field changes; and the record is unchanged
    exactly when the history was in ascending order already. *)
Theorem analyzePaymentConsistency_sorts_history (r : Subscription) :
  exists analysis r',
    analyzePaymentConsistency r = Some (analysis, r') /\
    Permutation (paymentHistory r') (paymentHistory r) /\
    dateAscending (paymentHistory r') /\
    (forall d : Z,
       filter (datedAt d) (paymentHistory r')
       = filter (datedAt d) (paymentHistory r)) /\
    r' = set_paymentHistory (paymentHistory r') r /\
    (r' = r <-> dateAscending (paymentHistory r)).
Proof.
  destruct (analyze_total r) as (analysis & r' & E).
  exists analysis, r'. split; [exact E|].
  pose proof (analyze_state _ _ _ E) as Hr'. subst r'.
  cbn [paymentHistory set_paymentHistory].
  split; [apply sort_perm|]. split; [apply sort_dateAscending|].
  split; [intros d; apply sort_stable|]. split; [reflexivity|].
  split.
  - intros H. apply sort_fixed_iff.
    apply (f_equal paymentHistory) in H. exact H.
  - intros H. rewrite sort_sorted_id by exact H.
    apply set_paymentHistory_same.
Qed.

(** X2. A second analysis of the record the first one left returns the
    same result object and changes nothing. *)
Theorem analyzePaymentConsistency_idempotent (r : Subscription) :
  exists analysis r',
    analyzePaymentConsistency r = Some (analysis, r') /\
    analyzePaymentConsistency r' = Some (analysis, r').
Proof.
  destruct (analyze_total r) as (analysis & r' & E).
  exists analysis, r'. split; [exact E|].
  pose proof (analyze_state _ _ _ E) as Hr'. subst r'.
  revert E. unfold analyzePaymentConsistency.
  cbn [paymentHistory set_paymentHistory].
  rewrite sort_idempotent, !sort_length. cbv zeta.
  cbn [paymentHistory set_paymentHistory].
  rewrite ?sort_length, ?set_paymentHistory_twice.
  destruct (List.length (paymentHistory r) <? 2)%nat eqn:Hshort.
  - intros E. injection E as <- _. reflexivity.
  - intros E. exact E.
Qed.

(** X3. [addPayment] leaves the history as the old history with the stored
    event appended exactly when that list is in ascending order of date,
    that is when the old history is in order and the new event is not dated
    before any recorded one. *)
Theorem addPayment_appends_iff_in_order (now1 now2 : Z)
    (paymentData : PaymentData.t) (r : Subscription) :
  exists r',
    addPayment now1 now2 paymentData r = Some r' /\
    (paymentHistory r' = paymentHistory r ++ [storedEvent now1 paymentData]
     <-> dateAscending (paymentHistory r ++ [storedEvent now1 paymentData])).
Proof.
  destruct (addPayment_history now1 now2 paymentData r)
    as (r' & E & Hh & _).
  exists r'. split; [exact E|].
  rewrite Hh. unfold historyAfterAdd. apply sort_fixed_iff.
Qed.

(** ** Order of recording *)

Lemma sorted_dates_perm (l1 l2 : list Payment.t) :
  Permutation l1 l2 ->
  map Payment.date (sort compareDates l1)
  = map Payment.date (sort compareDates l2).
Proof.
  intros Hp. apply sorted_Z_unique.
  - apply Permutation_map.
    eapply Permutation_trans; [apply sort_perm|].
    eapply Permutation_trans; [exact Hp|].
    apply Permutation_sym, sort_perm.
  - apply dateAscending_dates, sort_dateAscending.
  - apply dateAscending_dates, sort_dateAscending.
Qed.

Lemma sorted_distinct_perm (l1 l2 : list Payment.t) :
  Permutation l1 l2 -> NoDup (map Payment.date l1) ->
  sort compareDates l1 = sort compareDates l2.
Proof.
  intros Hp Hnd. apply ascending_distinct_unique.
  - eapply Permutation_trans; [apply sort_perm|].
    eapply Permutation_trans; [exact Hp|].
    apply Permutation_sym, sort_perm.
  - apply sort_dateAscending.
  - apply sort_dateAscending.
  - eapply Permutation_NoDup; [|exact Hnd].
    apply Permutation_map.
    eapply Permutation_trans; [exact Hp|].
    apply Permutation_sym, sort_perm.
Qed.

(** X4. The interval side of the analysis does not depend on the order in
    which the events were recorded: two histories with the same events give
    the same [averageInterval], [hasMonthlyPattern] and count, and are left
    with the same sequence of dates.  When the dates are distinct the whole
    result object and the stored history are the same. *)
Theorem analyzePaymentConsistency_order (r1 r2 : Subscription) :
  Permutation (paymentHistory r1) (paymentHistory r2) ->
  exists a1 r1' a2 r2',
    analyzePaymentConsistency r1 = Some (a1, r1') /\
    analyzePaymentConsistency r2 = Some (a2, r2') /\
    Analysis.averageInterval a1 = Analysis.averageInterval a2 /\
    Analysis.hasMonthlyPattern a1 = Analysis.hasMonthlyPattern a2 /\
    Analysis.paymentCount a1 = Analysis.paymentCount a2 /\
    map Payment.date (paymentHistory r1')
    = map Payment.date (paymentHistory r2') /\
    (NoDup (map Payment.date (paymentHistory r1)) ->
     a1 = a2 /\ paymentHistory r1' = paymentHistory r2').
Proof.
  intros Hp. pose proof (Permutation_length Hp) as Hlen.
  pose proof (sorted_dates_perm _ _ Hp) as Hdates.
  destruct (analyze_total r1) as (a1 & r1' & E1).
  destruct (analyze_total r2) as (a2 & r2' & E2).
  exists a1, r1', a2, r2'. split; [exact E1|]. split; [exact E2|].
  rewrite (analyze_state _ _ _ E1), (analyze_state _ _ _ E2).
  cbn [paymentHistory set_paymentHistory].
  destruct (Nat.lt_ge_cases (List.length (paymentHistory r1)) 2) as [H|H].
  - rewrite analyze_short in E1 by exact H.
    rewrite analyze_short in E2 by lia.
    injection E1 as <- _. injection E2 as <- _.
    repeat split; try reflexivity; try exact Hdates.
    now apply sorted_distinct_perm.
  - rewrite analyze_long in E1 by exact H.
    rewrite analyze_long in E2 by lia.
    injection E1 as <- _. injection E2 as <- _.
    cbn [Analysis.averageInterval Analysis.hasMonthlyPattern
         Analysis.paymentCount].
    rewrite (dayGaps_dates _ _ Hdates), Hlen.
    repeat split; try reflexivity; try exact Hdates.
    + now rewrite (sorted_distinct_perm _ _ Hp).
    + now apply sorted_distinct_perm.
Qed.

Lemma analyzePaymentConsistency_order_witness :
  exists a1 r1' a2 r2',
    analyzePaymentConsistency
      (set_paymentHistory [eventOn 60; eventOn 30; eventOn 90] sample)
    = Some (a1, r1') /\
    analyzePaymentConsistency
      (set_paymentHistory [eventOn 30; eventOn 60; eventOn 90] sample)
    = Some (a2, r2') /\
    a1 = a2.
Proof.
  destruct (analyzePaymentConsistency_order
              (set_paymentHistory [eventOn 60; eventOn 30; eventOn 90] sample)
              (set_paymentHistory [eventOn 30; eventOn 60; eventOn 90] sample))
    as (a1 & r1' & a2 & r2' & E1 & E2 & _ & _ & _ & _ & Hsame).
  - cbn. apply perm_swap.
  - exists a1, r1', a2, r2'. split; [exact E1|]. split; [exact E2|].
    apply Hsame. cbn.
    repeat constructor; cbn; intros H;
      repeat (destruct H as [H|H]; [revert H; vm_compute; discriminate|]);
      exact H.
Defined.

(** X5. The amount side does depend on the order of recording when dates
    are equal: three payments of one day with amounts 7.74, 9.25 and 8.81
    are not consistent, and the same payments recorded with the last two
    exchanged are (the binary64 sum of the amounts, and so their mean,
    depends on the order of the additions). *)
Theorem analyzePaymentConsistency_order_of_equal_dates :
  let a := eventOf 30 (centsAmount 774) in
  let b := eventOf 30 (centsAmount 925) in
  let c := eventOf 30 (centsAmount 881) in
  Permutation [a; b; c] [a; c; b] /\
  (exists analysis r',
     analyzePaymentConsistency (set_paymentHistory [a; b; c] sample)
     = Some (analysis, r') /\
     Analysis.isConsistent analysis = false) /\
  (exists analysis r',
     analyzePaymentConsistency (set_paymentHistory [a; c; b] sample)
     = Some (analysis, r') /\
     Analysis.isConsistent analysis = true).
Proof.
  intros a b c. split; [apply perm_skip, perm_swap|].
  split; eexists _, _; (split; [vm_compute; reflexivity | reflexivity]).
Qed.

(** ** The validity estimate *)

(** The verdict in declarative form. *)
Lemma isLikelyValid_true_iff (now : Z) (r : Subscription) :
  isLikelyValid now r = true <->
  (daysSinceLastPayment now r <= 180 /\
   ((1 < paymentCount r /\ isRecurring r = true /\
     daysSinceLastPayment now r <= 90) \/
    (paymentCount r = 1 /\ (6 <= confidenceScore r)%Q /\
     daysSinceLastPayment now r <= 60) \/
    (daysSinceLastPayment now r <= 30 /\ (4 <= confidenceScore r)%Q))).
Proof.
  unfold isLikelyValid.
  set (days := daysSinceLastPayment now r).
  rewrite <- !Qle_bool_iff.
  destruct (Z.ltb_spec 180 days) as [H180|H180].
  { split; [discriminate | lia]. }
  destruct (Z.ltb_spec 1 (paymentCount r)) as [Hpc|Hpc],
    (isRecurring r), (Z.leb_spec days 90) as [H90|H90]; cbn [andb];
    try (split; [intros _; split; [lia|]; left; repeat split; lia
                | reflexivity]);
    destruct (Z.eqb_spec (paymentCount r) 1) as [Hone|Hone],
      (Qle_bool 6 (confidenceScore r)), (Z.leb_spec days 60) as [H60|H60];
    cbn [andb];
    try (split; [intros _; split; [lia|]; right; left; repeat split; lia
                | reflexivity]);
    destruct (Z.leb_spec days 30) as [H30|H30],
      (Qle_bool 4 (confidenceScore r)); cbn [andb];
    try (split; [intros _; split; [lia|]; right; right; split;
                 [lia | reflexivity]
                | reflexivity]);
    (split; [discriminate|]);
    intros (_ & [(? & ? & ?)|[(? & ? & ?)|(? & ?)]]);
    try discriminate; try lia.
Qed.

Lemma daysSince_bound (now last k : Z) :
  (now - last) / (1000 * 60 * 60 * 24) <= k <->
  now - last < (k + 1) * Date.msPerDay.
Proof. unfold Date.msPerDay. split; intros H; Z.div_mod_to_equations; lia. Qed.

(** X6. A document is reported valid only if a last payment date is
    recorded and lies less than 91 days back, and only with more than one
    payment on a recurring document or a confidence score of at least 4. *)
Theorem isLikelyValid_needs_recent_payment (now : Z) (r : Subscription) :
  isLikelyValid now r = true ->
  exists last,
    lastPaymentDate r = Some last /\
    now - last < 91 * Date.msPerDay /\
    ((1 < paymentCount r /\ isRecurring r = true) \/
     (4 <= confidenceScore r)%Q).
Proof.
  intros H. apply isLikelyValid_true_iff in H.
  destruct H as (H180 & Hrule).
  unfold daysSinceLastPayment in *.
  destruct (lastPaymentDate r) as [last|]; [|lia].
  exists last. split; [reflexivity|].
  rewrite !daysSince_bound in Hrule. unfold Date.msPerDay in *.
  destruct Hrule as [(? & ? & ?)|[(? & H6 & ?)|(? & ?)]].
  - split; [lia | now left].
  - split; [lia | right].
    eapply Qle_trans; [|exact H6]. discriminate.
  - split; [lia | now right].
Qed.

Lemma isLikelyValid_needs_recent_payment_witness :
  exists last,
    lastPaymentDate
      (set_confidenceScore 5 (set_lastPaymentDate (Some (days 10)) sample))
    = Some last /\
    days 20 - last < 91 * Date.msPerDay.
Proof.
  destruct (isLikelyValid_needs_recent_payment (days 20)
              (set_confidenceScore 5
                 (set_lastPaymentDate (Some (days 10)) sample)))
    as (last & E & Hlt & _).
  - reflexivity.
  - exists last. split; [exact E | exact Hlt].
Defined.

(** X7. The 180-day test never decides: the verdict is that of the
    remaining rules alone. *)
Theorem isLikelyValid_cutoff_redundant (now : Z) (r : Subscription) :
  isLikelyValid now r
  = firstMatch (tl (validityRules (daysSinceLastPayment now r) r)).
Proof.
  unfold isLikelyValid, validityRules. cbn [tl firstMatch].
  set (days := daysSinceLastPayment now r).
  destruct (Z.ltb_spec 180 days) as [H|H]; [|reflexivity].
  destruct (Z.leb_spec days 90); [lia|].
  destruct (Z.leb_spec days 60); [lia|].
  destruct (Z.leb_spec days 30); [lia|].
  now rewrite !andb_false_r.
Qed.

(** X8. The verdict only expires and only improves with the score: a
    document valid at some time is valid at every earlier time, and with
    every higher confidence score. *)
Theorem isLikelyValid_monotone (now earlier : Z) (score : Q)
    (r : Subscription) :
  isLikelyValid now r = true ->
  earlier <= now -> (confidenceScore r <= score)%Q ->
  isLikelyValid earlier (set_confidenceScore score r) = true.
Proof.
  intros H Hearlier Hscore.
  apply isLikelyValid_true_iff in H. apply isLikelyValid_true_iff.
  assert (Hdays : daysSinceLastPayment earlier (set_confidenceScore score r)
                  <= daysSinceLastPayment now r).
  { unfold daysSinceLastPayment. cbn [lastPaymentDate set_confidenceScore].
    destruct (lastPaymentDate r) as [last|]; [|lia].
    apply Z.div_le_mono; lia. }
  cbn [paymentCount isRecurring confidenceScore set_confidenceScore].
  destruct H as (H180 & [(? & ? & ?)|[(? & H6 & ?)|(? & H4)]]).
  - split; [lia|]. left. repeat split; try assumption; lia.
  - split; [lia|]. right. left. repeat split; try assumption; try lia.
    eapply Qle_trans; eassumption.
  - split; [lia|]. right. right. split; [lia|].
    eapply Qle_trans; eassumption.
Qed.

Lemma isLikelyValid_monotone_witness :
  isLikelyValid (days 15)
    (set_confidenceScore 9
       (set_confidenceScore 5 (set_lastPaymentDate (Some (days 10)) sample)))
  = true.
Proof.
  apply (isLikelyValid_monotone (days 20) (days 15) 9
           (set_confidenceScore 5
              (set_lastPaymentDate (Some (days 10)) sample))).
  - reflexivity.
  - vm_compute. discriminate.
  - vm_compute. discriminate.
Defined.

(** X9. The verdict reads neither [isActive] nor the cancellation fields
    nor [nextRenewal] nor the order of the history: cancelling, saving and
    analysing leave it as it was, so a cancelled document can still be
    reported valid. *)
Theorem isLikelyValid_ignores_cancellation (now : Z) (r : Subscription) :
  (forall (cancelTime : Z) (reason : option string),
     isLikelyValid now (cancelSubscription cancelTime reason r)
     = isLikelyValid now r) /\
  (forall (saveTime : Z) (renewalDayModified isNew : bool),
     isLikelyValid now (preSave saveTime renewalDayModified isNew r)
     = isLikelyValid now r) /\
  (exists analysis r',
     analyzePaymentConsistency r = Some (analysis, r') /\
     isLikelyValid now r' = isLikelyValid now r).
Proof.
  split; [|split].
  - intros cancelTime reason. reflexivity.
  - intros saveTime m isNew. unfold preSave.
    destruct (isNone (nextRenewal r) || m || isNew);
      cbn [cancellationDate set_nextRenewal];
      destruct (cancellationDate r); reflexivity.
  - destruct (analyze_total r) as (analysis & r' & E).
    exists analysis, r'. split; [exact E|].
    rewrite (analyze_state _ _ _ E). reflexivity.
Qed.

(** X10. A last payment dated after the current time counts as recent:
    the number of days is negative, every limit on it holds, and the
    verdict is that of the other conditions alone. *)
Theorem isLikelyValid_future_payment (now last : Z) (r : Subscription) :
  lastPaymentDate r = Some last -> now < last ->
  daysSinceLastPayment now r < 0 /\
  isLikelyValid now r
  = (1 <? paymentCount r) && isRecurring r
    || (paymentCount r =? 1) && Qle_bool 6 (confidenceScore r)
    || Qle_bool 4 (confidenceScore r).
Proof.
  intros Hlast Hlt.
  assert (Hneg : daysSinceLastPayment now r < 0).
  { unfold daysSinceLastPayment. rewrite Hlast.
    apply Z.div_lt_upper_bound; lia. }
  split; [exact Hneg|].
  unfold isLikelyValid.
  set (d := daysSinceLastPayment now r) in *.
  destruct (Z.ltb_spec 180 d); [lia|].
  destruct (Z.leb_spec d 90); [|lia].
  destruct (Z.leb_spec d 60); [|lia].
  destruct (Z.leb_spec d 30); [|lia].
  rewrite !andb_true_r. cbn [andb].
  destruct ((1 <? paymentCount r) && isRecurring r); [reflexivity|].
  destruct ((paymentCount r =? 1) && Qle_bool 6 (confidenceScore r));
    [reflexivity|].
  destruct (Qle_bool 4 (confidenceScore r)); reflexivity.
Qed.

Lemma isLikelyValid_future_payment_witness :
  isLikelyValid (days 10)
    (set_confidenceScore 5 (set_lastPaymentDate (Some (days 400)) sample))
  = true.
Proof.
  destruct (isLikelyValid_future_payment (days 10) (days 400)
              (set_confidenceScore 5
                 (set_lastPaymentDate (Some (days 400)) sample)))
    as (_ & E).
  - reflexivity.
  - vm_compute. reflexivity.
  - rewrite E. reflexivity.
Defined.

(** ** What [addPayment] leaves alone *)

Lemma addPayment_result (now1 now2 : Z) (paymentData : PaymentData.t)
    (r : Subscription) :
  exists analysis r',
    addPayment now1 now2 paymentData r = Some r' /\
    r' = (if 1 <? paymentCount (recordPayment now1 now2 paymentData r)
          then updateFromAnalysis analysis
                 (set_paymentHistory (historyAfterAdd now1 paymentData r)
                    (recordPayment now1 now2 paymentData r))
          else recordPayment now1 now2 paymentData r).
Proof.
  destruct (addPayment_eq now1 now2 paymentData r) as (analysis & _ & E).
  eexists analysis, _. split; [exact E | reflexivity].
Qed.

Lemma updateFromAnalysis_frame (analysis : Analysis.t) (r : Subscription) :
  let r' := updateFromAnalysis analysis r in
  userId r' = userId r /\ serviceName r' = serviceName r /\
  amount r' = amount r /\ currency r' = currency r /\
  renewalDay r' = renewalDay r /\ nextRenewal r' = nextRenewal r /\
  category r' = category r /\ description r' = description r /\
  isActive r' = isActive r /\ detectedFromEmail r' = detectedFromEmail r /\
  cancellationDate r' = cancellationDate r /\
  cancellationReason r' = cancellationReason r.
Proof.
  unfold updateFromAnalysis.
  destruct (Analysis.isConsistent analysis
            && Analysis.hasMonthlyPattern analysis); repeat split.
Qed.

Lemma addPayment_untouched (now1 now2 : Z) (paymentData : PaymentData.t)
    (r : Subscription) :
  exists r',
    addPayment now1 now2 paymentData r = Some r' /\
    userId r' = userId r /\ serviceName r' = serviceName r /\
    amount r' = amount r /\ currency r' = currency r /\
    renewalDay r' = renewalDay r /\ nextRenewal r' = nextRenewal r /\
    category r' = category r /\ description r' = description r /\
    isActive r' = isActive r /\ detectedFromEmail r' = detectedFromEmail r /\
    cancellationDate r' = cancellationDate r /\
    cancellationReason r' = cancellationReason r.
Proof.
  destruct (addPayment_result now1 now2 paymentData r)
    as (analysis & r' & E & Hr').
  exists r'. split; [exact E|].
  destruct (1 <? paymentCount (recordPayment now1 now2 paymentData r));
    subst r'.
  - exact (updateFromAnalysis_frame analysis
             (set_paymentHistory (historyAfterAdd now1 paymentData r)
                (recordPayment now1 now2 paymentData r))).
  - repeat split.
Qed.

(** X11. [addPayment] touches only the payment fields: identity, amount,
    renewal day, [nextRenewal], [isActive] and the cancellation fields are
    as before, so a payment recorded on a cancelled document does not
    reactivate it.  The first payment of an empty history also leaves the
    pattern flags and the score as they were; every later one sets
    [isRecurring] and [hasPaymentHistory]. *)
Theorem addPayment_frame (now1 now2 : Z) (paymentData : PaymentData.t)
    (r : Subscription) :
  exists r',
    addPayment now1 now2 paymentData r = Some r' /\
    (userId r' = userId r /\ serviceName r' = serviceName r /\
     amount r' = amount r /\ currency r' = currency r /\
     renewalDay r' = renewalDay r /\ nextRenewal r' = nextRenewal r /\
     category r' = category r /\ description r' = description r /\
     isActive r' = isActive r /\ detectedFromEmail r' = detectedFromEmail r /\
     cancellationDate r' = cancellationDate r /\
     cancellationReason r' = cancellationReason r) /\
    (paymentHistory r = [] ->
     isRecurring r' = isRecurring r /\
     hasPaymentHistory r' = hasPaymentHistory r /\
     hasConsistentRenewalDate r' = hasConsistentRenewalDate r /\
     confidenceScore r' = confidenceScore r) /\
    (paymentHistory r <> [] ->
     isRecurring r' = true /\ hasPaymentHistory r' = true).
Proof.
  destruct (addPayment_untouched now1 now2 paymentData r)
    as (r' & E & Hframe).
  exists r'. split; [exact E|]. split; [exact Hframe|].
  destruct (addPayment_result now1 now2 paymentData r)
    as (analysis & r'' & E' & Hr').
  assert (r'' = r') by congruence. subst r''.
  pose proof (recordPayment_count now1 now2 paymentData r) as Hc.
  destruct (Z.ltb_spec 1
              (paymentCount (recordPayment now1 now2 paymentData r)))
    as [Hgt|Hle]; subst r'.
  - split.
    + intros He. rewrite Hc, He in Hgt. cbn in Hgt. lia.
    + intros _.
      destruct (updateFromAnalysis_fields analysis
                  (set_paymentHistory (historyAfterAdd now1 paymentData r)
                     (recordPayment now1 now2 paymentData r)))
        as (Hrec & Hhist & _).
      split; assumption.
  - split.
    + intros _. repeat split.
    + intros Hne. rewrite Hc in Hle.
      destruct (paymentHistory r); [congruence|].
      cbn [List.length] in Hle. lia.
Qed.

(** ** The save hook *)

(** X12. After any save [nextRenewal] is null exactly when the document is
    cancelled, and no other field has changed; saving again without a
    change of [renewalDay] changes nothing; and a live document that already
    has a [nextRenewal] keeps it on such a save, whatever the time. *)
Theorem preSave_nextRenewal (now : Z) (renewalDayModified isNew : bool)
    (r : Subscription) :
  (nextRenewal (preSave now renewalDayModified isNew r) = None
   <-> cancellationDate r <> None) /\
  preSave now renewalDayModified isNew r
  = set_nextRenewal (nextRenewal (preSave now renewalDayModified isNew r)) r /\
  (forall later : Z,
     preSave later false false (preSave now renewalDayModified isNew r)
     = preSave now renewalDayModified isNew r) /\
  (forall (later : Z) (d : Z),
     preSave later false false
       (set_nextRenewal (Some d) (set_cancellationDate None r))
     = set_nextRenewal (Some d) (set_cancellationDate None r)).
Proof.
  destruct r as [uid name amt cur day next cat desc act det
                   hist cdate creason lastp rec score hph hcr cnt].
  split; [|split; [|split]].
  - unfold preSave. abstract_renewals.
    destruct next, renewalDayModified, isNew, cdate; cbn;
      split; intros H; congruence.
  - unfold preSave. abstract_renewals.
    destruct next, renewalDayModified, isNew, cdate; reflexivity.
  - intros later. unfold preSave.
    cbn [nextRenewal cancellationDate set_nextRenewal isNone orb].
    abstract_renewals.
    destruct next, renewalDayModified, isNew, cdate;
      cbn [nextRenewal cancellationDate set_nextRenewal isNone orb];
      abstract_renewals; reflexivity.
  - intros later d. reflexivity.
Qed.

(** ** Whole traces *)

Lemma step_total (op : Op) (r : Subscription) :
  exists r', step op r = Some r'.
Proof.
  destruct op as [now1 now2 pd|now reason| |now|now|now m isNew];
    cbn [step]; try (eexists; reflexivity).
  - destruct (addPayment_history now1 now2 pd r) as (r' & E & _).
    now exists r'.
  - destruct (analyze_total r) as (analysis & r' & E).
    exists r'. now rewrite E.
Qed.

Lemma exec_total (ops : list Op) (r : Subscription) :
  exists r', exec ops r = Some r'.
Proof.
  revert r. induction ops as [|op ops IH]; intros r.
  - now exists r.
  - destruct (step_total op r) as (r1 & E1).
    destruct (IH r1) as (r' & E).
    exists r'. cbn [exec]. rewrite E1. exact E.
Qed.

Lemma preSave_fields (now : Z) (m isNew : bool) (r : Subscription) :
  let r' := preSave now m isNew r in
  isActive r' = isActive r /\ cancellationDate r' = cancellationDate r /\
  confidenceScore r' = confidenceScore r /\
  paymentHistory r' = paymentHistory r /\
  hasPaymentHistory r' = hasPaymentHistory r /\
  isRecurring r' = isRecurring r /\ paymentCount r' = paymentCount r /\
  lastPaymentDate r' = lastPaymentDate r.
Proof.
  destruct r as [uid name amt cur day next cat desc act det
                   hist cdate creason lastp rec score hph hcr cnt].
  unfold preSave. abstract_renewals.
  destruct next, m, isNew, cdate; cbn; repeat split.
Qed.

Lemma step_cancelled (op : Op) (r : Subscription) :
  cancelled r -> exists r', step op r = Some r' /\ cancelled r'.
Proof.
  intros (Hact & Hdate).
  destruct op as [now1 now2 pd|now reason| |now|now|now m isNew];
    cbn [step].
  - destruct (addPayment_untouched now1 now2 pd r)
      as (r' & E & _ & _ & _ & _ & _ & _ & _ & _ & Ha & _ & Hd & _).
    exists r'. split; [exact E|]. unfold cancelled. now rewrite Ha, Hd.
  - eexists. split; [reflexivity|]. split; [reflexivity | discriminate].
  - destruct (analyze_total r) as (analysis & r' & E).
    exists r'. rewrite E. split; [reflexivity|].
    rewrite (analyze_state _ _ _ E). now split.
  - eexists. split; [reflexivity|]. now split.
  - eexists. split; [reflexivity|]. now split.
  - eexists. split; [reflexivity|].
    destruct (preSave_fields now m isNew r) as (Ha & Hd & _).
    unfold cancelled. now rewrite Ha, Hd.
Qed.

Lemma exec_cancelled (ops : list Op) (r : Subscription) :
  cancelled r -> exists r', exec ops r = Some r' /\ cancelled r'.
Proof.
  revert r. induction ops as [|op ops IH]; intros r Hc.
  - now exists r.
  - destruct (step_cancelled op r Hc) as (r1 & E1 & Hc1).
    destruct (IH r1 Hc1) as (r' & E & Hc').
    exists r'. cbn [exec]. rewrite E1. now split.
Qed.

(** X13. Cancellation is one-way: after [cancelSubscription], whatever
    operations follow (payments included), the document is still inactive
    with a cancellation date, and every save leaves [nextRenewal] null. *)
Theorem cancellation_is_permanent (now : Z) (reason : option string)
    (ops : list Op) (r : Subscription) :
  exists r',
    exec (OpCancelSubscription now reason :: ops) r = Some r' /\
    isActive r' = false /\
    cancellationDate r' <> None /\
    (forall (saveTime : Z) (renewalDayModified isNew : bool),
       nextRenewal (preSave saveTime renewalDayModified isNew r') = None).
Proof.
  destruct (exec_cancelled ops (cancelSubscription now reason r))
    as (r' & E & Hact & Hdate).
  { split; [reflexivity | discriminate]. }
  exists r'. split; [exact E|]. split; [exact Hact|]. split; [exact Hdate|].
  intros saveTime m isNew. unfold preSave.
  destruct (isNone (nextRenewal r') || m || isNew);
    cbn [cancellationDate set_nextRenewal];
    destruct (cancellationDate r'); congruence || reflexivity.
Qed.

Lemma step_score (op : Op) (r : Subscription) :
  exists r',
    step op r = Some r' /\ (confidenceScore r <= confidenceScore r')%Q.
Proof.
  destruct op as [now1 now2 pd|now reason| |now|now|now m isNew];
    cbn [step]; try (eexists; split; [reflexivity | apply Qle_refl]).
  - destruct (addPayment_result now1 now2 pd r) as (analysis & r' & E & Hr').
    exists r'. split; [exact E|]. subst r'.
    destruct (1 <? paymentCount (recordPayment now1 now2 pd r));
      [|apply Qle_refl].
    apply (updateFromAnalysis_score analysis
             (set_paymentHistory (historyAfterAdd now1 pd r)
                (recordPayment now1 now2 pd r))).
  - destruct (analyze_total r) as (analysis & r' & E).
    exists r'. rewrite E. split; [reflexivity|].
    rewrite (analyze_state _ _ _ E). apply Qle_refl.
  - eexists. split; [reflexivity|].
    destruct (preSave_fields now m isNew r) as (_ & _ & E & _).
    cbv zeta in E. rewrite E. apply Qle_refl.
Qed.

(** X14. No operation lowers [confidenceScore]: over every trace, from
    every state, the score at the end is at least the score at the
    start. *)
Theorem confidenceScore_never_decreases (ops : list Op) (r : Subscription) :
  exists r',
    exec ops r = Some r' /\ (confidenceScore r <= confidenceScore r')%Q.
Proof.
  revert r. induction ops as [|op ops IH]; intros r.
  - exists r. split; [reflexivity | apply Qle_refl].
  - destruct (step_score op r) as (r1 & E1 & H1).
    destruct (IH r1) as (r' & E & H).
    exists r'. cbn [exec]. rewrite E1. split; [exact E|].
    eapply Qle_trans; eassumption.
Qed.

(** ** Documents built by the model's operations alone *)

Lemma addPayment_fresh (now1 now2 : Z) (paymentData : PaymentData.t)
    (n : nat) (r : Subscription) :
  freshInvariant n r ->
  exists r',
    addPayment now1 now2 paymentData r = Some r' /\ freshInvariant (S n) r'.
Proof.
  intros (Hinv & _ & Hflags & Hscore).
  destruct (addPayment_invariant now1 now2 paymentData n r Hinv)
    as (r' & E & Hinv').
  exists r'. split; [exact E|]. split; [exact Hinv'|].
  destruct (addPayment_history now1 now2 paymentData r)
    as (r0 & E0 & Hh & _).
  assert (r0 = r') by congruence. subst r0.
  split; [rewrite Hh; apply sort_dateAscending|].
  destruct (addPayment_result now1 now2 paymentData r)
    as (analysis & r0 & E0' & Hr').
  assert (Hsame : r0 = r') by congruence.
  rewrite Hsame in Hr'. clear Hsame E0 E0' r0.
  destruct Hinv as (_ & Hl & _).
  rewrite recordPayment_count, Hl in Hr'. rewrite Hr'. clear Hr' Hh Hinv' E.
  destruct (Z.ltb_spec 1 (Z.of_nat n + 1)) as [Hgt|Hle].
  - destruct (updateFromAnalysis_fields analysis
                (set_paymentHistory (historyAfterAdd now1 paymentData r)
                   (recordPayment now1 now2 paymentData r)))
      as (-> & -> & _).
    split; [reflexivity|].
    unfold updateFromAnalysis.
    destruct (Analysis.isConsistent analysis
              && Analysis.hasMonthlyPattern analysis);
      cbn [confidenceScore set_confidenceScore set_isRecurring
           set_hasPaymentHistory set_hasConsistentRenewalDate
           set_paymentHistory recordPayment set_lastPaymentDate
           set_paymentCount].
    + right. split; [|lia].
      destruct Hscore as [->|(-> & _)]; reflexivity.
    + destruct Hscore as [H0|(H8 & _)];
        [now left | right; split; [exact H8 | lia]].
  - split; [exact Hflags|].
    destruct Hscore as [H0|(H8 & H2)]; [now left | lia].
Qed.

Lemma step_fresh (op : Op) (n : nat) (r : Subscription) :
  freshInvariant n r ->
  exists r',
    step op r = Some r' /\
    freshInvariant (if isAddPayment op then S n else n) r'.
Proof.
  intros Hinv.
  destruct op as [now1 now2 pd|now reason| |now|now|now m isNew];
    cbn [step isAddPayment].
  - now apply addPayment_fresh.
  - eexists. split; [reflexivity|].
    destruct Hinv as ((H1 & H2 & H3) & H4 & H5 & H6).
    unfold freshInvariant, traceInvariant.
    cbn [cancelSubscription paymentCount paymentHistory isRecurring
         hasPaymentHistory confidenceScore set_isActive set_cancellationDate
         set_cancellationReason].
    repeat split; assumption.
  - destruct (step_invariant OpAnalyzePaymentConsistency n r (proj1 Hinv))
      as (r' & E & Hinv').
    cbn [step isAddPayment] in E, Hinv'.
    exists r'. split; [exact E|]. split; [exact Hinv'|].
    destruct (analyze_total r) as (analysis & r0 & E0).
    rewrite E0 in E. cbn [bind snd] in E.
    assert (r0 = r') by congruence. subst r0.
    rewrite (analyze_state _ _ _ E0).
    cbn [paymentHistory set_paymentHistory hasPaymentHistory isRecurring
         confidenceScore].
    destruct Hinv as (_ & _ & H3 & H4).
    split; [apply sort_dateAscending|]. now split.
  - eexists. split; [reflexivity | exact Hinv].
  - eexists. split; [reflexivity | exact Hinv].
  - eexists. split; [reflexivity|].
    destruct (preSave_fields now m isNew r)
      as (_ & _ & Hs & Hh & Hp & Hr & Hc & _).
    cbv zeta in Hs, Hh, Hp, Hr, Hc.
    destruct Hinv as ((H1 & H2 & H3) & H4 & H5 & H6).
    unfold freshInvariant, traceInvariant.
    rewrite Hs, Hh, Hp, Hr, Hc. now repeat split.
Qed.

Lemma exec_fresh (ops : list Op) (n : nat) (r : Subscription) :
  freshInvariant n r ->
  exists r',
    exec ops r = Some r' /\ freshInvariant (addPaymentCalls ops + n) r'.
Proof.
  revert n r. induction ops as [|op ops IH]; intros n r Hinv.
  - exists r. split; [reflexivity | exact Hinv].
  - destruct (step_fresh op n r Hinv) as (r1 & E1 & Hinv1).
    destruct (IH _ _ Hinv1) as (r' & E & Hinv').
    exists r'. cbn [exec]. rewrite E1. cbn [bind]. split; [exact E|].
    unfold addPaymentCalls in *. cbn [filter].
    destruct (isAddPayment op); cbn [List.length] in *;
      [now rewrite Nat.add_succ_r in Hinv' | exact Hinv'].
Qed.

Lemma fresh_freshInvariant (uid name : string) (amt : Q) (cur : Currency)
    (day : Z) :
  freshInvariant 0 (fresh uid name amt cur day).
Proof.
  split; [apply fresh_invariant|]. split; [constructor|].
  split; [reflexivity | now left].
Qed.

(** X15. After any trace of operations on a document created with the
    schema defaults, [paymentCount] and the length of [paymentHistory] are
    the number of [addPayment] calls, the history is in ascending order of
    date, [hasPaymentHistory] equals [isRecurring], and [confidenceScore]
    is 0 or 8, 8 only after at least two payments. *)
Theorem fresh_document_invariants (uid name : string) (amt : Q)
    (cur : Currency) (day : Z) (ops : list Op) :
  exists r,
    exec ops (fresh uid name amt cur day) = Some r /\
    paymentCount r = Z.of_nat (addPaymentCalls ops) /\
    List.length (paymentHistory r) = addPaymentCalls ops /\
    dateAscending (paymentHistory r) /\
    hasPaymentHistory r = isRecurring r /\
    (confidenceScore r = 0%Q \/
     (confidenceScore r = 8%Q /\ (2 <= addPaymentCalls ops)%nat)).
Proof.
  destruct (exec_fresh ops 0 _ (fresh_freshInvariant uid name amt cur day))
    as (r & E & (Hc & Hl & _) & Hasc & Hflags & Hscore).
  rewrite Nat.add_0_r in *.
  exists r. now repeat split.
Qed.

(** X16. On such a document the validity estimate comes down to one test:
    it is valid exactly when it has more than one payment and the last
    payment date is at most 90 whole days back; the rules on
    [confidenceScore] never decide. *)
Theorem fresh_document_validity (uid name : string) (amt : Q)
    (cur : Currency) (day : Z) (ops : list Op) (now : Z) :
  exists r,
    exec ops (fresh uid name amt cur day) = Some r /\
    isLikelyValid now r
    = (1 <? paymentCount r) && (daysSinceLastPayment now r <=? 90).
Proof.
  destruct (exec_fresh ops 0 _ (fresh_freshInvariant uid name amt cur day))
    as (r & E & (Hc & _ & Hr) & _ & _ & Hscore).
  rewrite Nat.add_0_r in *.
  exists r. split; [exact E|].
  unfold isLikelyValid. rewrite Hr, Hc.
  set (n := addPaymentCalls ops) in *.
  set (d := daysSinceLastPayment now r).
  destruct (Z.ltb_spec 180 d) as [H180|H180].
  { destruct (Z.leb_spec d 90); [lia|]. now rewrite andb_false_r. }
  destruct (Z.ltb_spec 1 (Z.of_nat n)) as [Hn|Hn],
    (Nat.leb_spec 2 n) as [Hn'|Hn']; try lia; cbn [andb].
  - destruct (Z.leb_spec d 90) as [H90|H90]; [reflexivity|].
    destruct (Z.eqb_spec (Z.of_nat n) 1) as [H1|H1]; [lia|]. cbn [andb].
    destruct (Z.leb_spec d 30); [lia | reflexivity].
  - destruct Hscore as [->|(_ & H2)]; [|lia].
    change (Qle_bool 6 0) with false. change (Qle_bool 4 0) with false.
    now rewrite !andb_false_r.
Qed.

(** ** The renewal date *)

Lemma fields_eq (t y m d ms : Z) :
  Date.fields t = (y, m, d, ms) ->
  Date.getFullYear t = y /\ Date.getMonth t = m /\ Date.getDate t = d /\
  Date.TimeWithinDay t = ms.
Proof.
  unfold Date.fields. intros H. injection H as H1 H2 H3 H4. now repeat split.
Qed.

Lemma fields_inj (t1 t2 : Z) : Date.fields t1 = Date.fields t2 -> t1 = t2.
Proof.
  intros H.
  destruct (fields_eq t1 _ _ _ _ H) as (Hy & Hm & Hd & Hms).
  destruct (fields_decompose t1) as (E1 & _).
  destruct (fields_decompose t2) as (E2 & _).
  rewrite E1, E2, Hy, Hm, Hd, Hms. reflexivity.
Qed.

Lemma targetMonth_eq (now renewalDay : Z) :
  targetMonth now renewalDay
  = if Date.at_ (Date.getFullYear now) (Date.getMonth now) renewalDay 0
       <=? now
    then nextMonth (Date.getFullYear now) (Date.getMonth now)
    else (Date.getFullYear now, Date.getMonth now).
Proof. reflexivity. Qed.

(** The result of [calculateNextRenewal] as a time value. *)
Lemma calculateNextRenewal_value (now : Z) (r : Subscription) :
  1 <= renewalDay r <= 31 ->
  Date.getFullYear now < 0 \/ 99 < Date.getFullYear now ->
  exists y m : Z,
    0 <= m <= 11 /\
    Date.fields (calculateNextRenewal now r)
    = (y, m, Z.min (renewalDay r) (Date.DaysInMonth y m), 0) /\
    calculateNextRenewal now r
    = Date.at_ y m (Z.min (renewalDay r) (Date.DaysInMonth y m)) 0 /\
    (y, m) = targetMonth now (renewalDay r).
Proof.
  intros Hrd Hyear.
  pose proof (calculateNextRenewal_cases now r Hrd Hyear) as Hf.
  cbv zeta in Hf. apply proj1 in Hf.
  pose proof (fields_decompose now) as Hn. cbv zeta in Hn.
  destruct Hn as (_ & Hm & _).
  pose proof (nextMonth_range (Date.getFullYear now) _ Hm) as Hm'.
  exists (fst (targetMonth now (renewalDay r))),
    (snd (targetMonth now (renewalDay r))).
  split.
  { rewrite targetMonth_eq.
    destruct (_ <=? now); [exact Hm' | exact Hm]. }
  split; [exact Hf|].
  split; [|now destruct (targetMonth now (renewalDay r))].
  pose proof (fields_decompose (calculateNextRenewal now r)) as Hres.
  cbv zeta in Hres. destruct Hres as (Eres & _).
  apply fields_eq in Hf. destruct Hf as (Hy & Hmo & Hd & Hms).
  rewrite Hy, Hmo, Hd, Hms in Eres. exact Eres.
Qed.



(** X18. Calling [calculateNextRenewal] at the date it returned (years
    from 100 on): when that date falls on the renewal day, the next result
    is in the following month, on the renewal day or the last day of a
    shorter month, and later; when the date was clamped to the last day of
    a shorter month, the call returns that same date again. *)
Theorem calculateNextRenewal_again (now : Z) (r : Subscription) :
  1 <= renewalDay r <= 31 ->
  99 < Date.getFullYear now ->
  let first := calculateNextRenewal now r in
  let second := calculateNextRenewal first r in
  let following :=
    nextMonth (Date.getFullYear first) (Date.getMonth first) in
  (Date.getDate first = renewalDay r ->
   Date.fields second
   = (fst following, snd following,
      Z.min (renewalDay r)
        (Date.DaysInMonth (fst following) (snd following)), 0) /\
   first < second) /\
  (Date.getDate first <> renewalDay r -> second = first).
Proof.
  intros Hrd Hyear. cbv zeta.
  destruct (calculateNextRenewal_value now r Hrd (or_intror Hyear))
    as (y & m & Hm & Hf & Efirst & Ht).
  assert (Hyear' : 99 < y).
  { rewrite targetMonth_eq in Ht. unfold nextMonth in Ht.
    destruct (_ <=? now); [|injection Ht as -> _; exact Hyear].
    destruct (Date.getMonth now =? 11); injection Ht as -> _; lia. }
  clear Ht Hyear.
  apply fields_eq in Hf. destruct Hf as (Hy & Hmo & Hd & _).
  revert Hy Hmo Hd Efirst.
  generalize (calculateNextRenewal now r). intros first Hy Hmo Hd Efirst.
  rewrite Hy, Hmo, Hd.
  assert (Hyear1 : Date.getFullYear first < 0 \/ 99 < Date.getFullYear first)
    by (right; rewrite Hy; exact Hyear').
  destruct (calculateNextRenewal_value first r Hrd Hyear1)
    as (y2 & m2 & Hm2 & Hf2 & _ & Ht2).
  pose proof (calculateNextRenewal_cases first r Hrd Hyear1) as Hlt2.
  cbv zeta in Hlt2. apply proj2 in Hlt2.
  rewrite targetMonth_eq, Hy, Hmo in Ht2. rewrite Hy, Hmo, Hd in Hlt2.
  pose proof (DaysInMonth_bounds y m Hm) as Hdim.
  clear Hy Hmo Hd Hyear1.
  revert Hrd Hf2 Ht2 Hlt2 Efirst.
  generalize (calculateNextRenewal first r), (renewalDay r).
  intros second rd Hrd Hf2 Ht2 Hlt2 Efirst.
  pose proof (at_linear y m rd 0) as Hcand.
  pose proof (at_linear y m (Z.min rd (Date.DaysInMonth y m)) 0) as Hcur.
  rewrite <- Efirst in Hcur.
  split.
  - intros Hday.
    destruct (Z.leb_spec (Date.at_ y m rd 0) first) as [Hle|Hgt]; [|lia].
    rewrite <- Ht2. cbn [fst snd]. split; [exact Hf2|].
    apply Hlt2. lia.
  - intros Hday.
    destruct (Z.leb_spec (Date.at_ y m rd 0) first) as [Hle|Hgt]; [lia|].
    injection Ht2 as -> ->.
    apply fields_inj. rewrite Hf2, Efirst. symmetry.
    apply fields_at; [exact Hm | lia | unfold Date.msPerDay; lia].
Qed.

Lemma calculateNextRenewal_again_witness :
  let first := calculateNextRenewal (Date.at_ 2023 3 15 0) sample in
  Date.fields first = (2023, 3, 30, 0) /\
  calculateNextRenewal first sample = first.
Proof.
  intros first.
  destruct (calculateNextRenewal_again (Date.at_ 2023 3 15 0) sample)
    as (_ & Hstuck).
  - cbn. lia.
  - vm_compute. reflexivity.
  - split; [vm_compute; reflexivity|].
    apply Hstuck. vm_compute. discriminate.
Defined.

(** ** The profile route *)

Section ProfileFacts.
Context {Char : Type} (isWhiteSpace : Char -> bool).













End ProfileFacts.

